(** * lllm/utils.py: completion wrappers with retry

    A shallow embedding of [completion_with_backoff],
    [delayed_completion_with_backoff] and [completion_create_retry], and the
    properties of their retry policies and of the request and response
    translation.

    Python values are a small inductive type, keyword arguments a finite map
    from names to values, the outbound payload an insertion-ordered
    association list.  The hosted API, the endpoint callables, the jitter of
    the backoff and the builtin [str] are an explicit environment; the only
    mutable state is the number of hosted calls made so far and the
    chronological log of what the process did (calls, sleeps, prints). *)

From Stdlib Require Import QArith Qminmax Qpower Lqa.
From stdpp Require Import gmap strings list.

Set Default Proof Using "Type".
Set Warnings "-register-all".
Local Open Scope string_scope.
Local Open Scope list_scope.

(** ** Python values *)

Inductive pyval : Type :=
| VNone
| VBool (b : bool)
| VInt (z : Z)
| VFloat (q : Q)
| VStr (s : string)
| VList (l : list pyval)
| VDict (d : list (string * pyval))
| VCallable (f : nat).

(** Instances of [Exception].  [APIError] stands for whatever the hosted
    client or an endpoint raises; [RetryError] is tenacity's wrapper around
    the last failed attempt; [OverflowError] is what [time.sleep] raises for
    a length it cannot convert. *)
Inductive exn : Type :=
| KeyError (key : string)
| IndexError
| TypeError
| ValueError
| OverflowError
| APIError (msg : string)
| RetryError (last_attempt : exn).

Inductive result (A : Type) : Type :=
| Ok (a : A)
| Raise (e : exn).
Arguments Ok {A} a.
Arguments Raise {A} e.

Definition is_not_None (v : pyval) : bool :=
  match v with VNone => false | _ => true end.

Definition is_list (v : pyval) : bool :=
  match v with VList _ => true | _ => false end.

(** [needle in hay] on two strings. *)
Fixpoint str_contains (needle hay : string) : bool :=
  String.prefix needle hay ||
  match hay with
  | EmptyString => false
  | String _ rest => str_contains needle rest
  end.

Definition is_str (s : string) (v : pyval) : bool :=
  match v with VStr s' => String.eqb s s' | _ => false end.

(** [marker in v]: substring test on a string, membership on a list, key
    membership on a dict; anything else is not iterable. *)
Definition py_in (marker : string) (v : pyval) : result bool :=
  match v with
  | VStr s => Ok (str_contains marker s)
  | VList l => Ok (existsb (is_str marker) l)
  | VDict d => Ok (existsb (fun kv => String.eqb marker kv.1) d)
  | _ => Raise TypeError
  end.

(** [v[0]] *)
Definition getitem0 (v : pyval) : result pyval :=
  match v with
  | VStr EmptyString => Raise IndexError
  | VStr (String c _) => Ok (VStr (String c EmptyString))
  | VList [] => Raise IndexError
  | VList (x :: _) => Ok x
  | VDict _ => Raise (KeyError "0")
  | _ => Raise TypeError
  end.

(** ** Requests and responses *)

Abbreviation kwargs := (gmap string pyval).
Abbreviation payload := (list (string * pyval)).

(** [kwargs.get(k)] and [kwargs.get(k, d)] *)
Definition kwargs_get (kw : kwargs) (k : string) : pyval :=
  default VNone (kw !! k).
Definition kwargs_get_or (kw : kwargs) (k : string) (d : pyval) : pyval :=
  default d (kw !! k).

(** [kwargs[k]] *)
Definition kwargs_item (kw : kwargs) (k : string) : result pyval :=
  match kw !! k with
  | Some v => Ok v
  | None => Raise (KeyError k)
  end.

(** [{k: v for k, v in d.items() if v is not None}] *)
Definition remove_None (d : payload) : payload :=
  List.filter (fun kv => is_not_None kv.2) d.

Fixpoint payload_lookup (k : string) (d : payload) : option pyval :=
  match d with
  | [] => None
  | (k', v) :: rest => if String.eqb k k' then Some v else payload_lookup k rest
  end.

Definition user_message (content : pyval) : pyval :=
  VList [VDict [("role", VStr "user"); ("content", content)]].

(** What the chat-completion endpoint answers. *)
Record usage_counts : Type := mk_usage {
  prompt_tokens : Z;
  completion_tokens : Z;
  total_tokens : Z
}.

Record api_choice : Type := mk_api_choice {
  message_content : pyval;
  api_finish_reason : pyval
}.

Record api_response : Type := mk_api_response {
  api_choices : list api_choice;
  api_model : pyval;
  api_usage : option usage_counts
}.

(** The legacy response shape handed back to the caller. *)
Record legacy_choice : Type := mk_choice {
  text : pyval;
  index : nat;
  logprobs : pyval;
  finish_reason : pyval
}.

Record legacy_response : Type := mk_response {
  choices : list legacy_choice;
  model : pyval;
  usage : option usage_counts
}.

(** A call returns a legacy response, or whatever an endpoint returned. *)
Inductive retval : Type :=
| Legacy (r : legacy_response)
| FromEndpoint (v : pyval).

(** ** Environment, state and the monad of effects *)

Inductive event : Type :=
| ECreate (p : payload)
| EEndpoint (f : nat) (prompts : pyval) (kw : kwargs)
| ESleep (seconds : Q)
| EPrintError (e : exn).

Record environment : Type := mk_env {
  (** outcome of the k-th call of [client.chat.completions.create] *)
  create : nat -> payload -> result api_response;
  (** behaviour of callable number f on the prompts and the keywords *)
  call : nat -> pyval -> kwargs -> result pyval;
  (** value of [random.random()] drawn for the wait after attempt k *)
  jitter : nat -> Q;
  (** the builtin [str] *)
  py_str : pyval -> string
}.

Record state : Type := mk_state {
  created : nat;
  log : list event
}.

Definition M (A : Type) : Type := state -> result A * state.

Definition ret {A} (a : A) : M A := fun st => (Ok a, st).
Definition raise {A} (e : exn) : M A := fun st => (Raise e, st).
Definition bind {A B} (m : M A) (k : A -> M B) : M B := fun st =>
  match m st with
  | (Ok a, st1) => k a st1
  | (Raise e, st1) => (Raise e, st1)
  end.
Definition lift {A} (r : result A) : M A := fun st => (r, st).

Declare Scope py_scope.
Delimit Scope py_scope with py.
Notation "x <- m ;; k" := (bind m (fun x => k))
  (at level 100, m at next level, right associativity) : py_scope.
Notation "m ;;; k" := (bind m (fun _ => k))
  (at level 100, right associativity) : py_scope.
Local Open Scope py_scope.

Definition emit (ev : event) (st : state) : state :=
  {| created := created st; log := log st ++ [ev] |}.

(** [time.sleep] first converts the length to a 64-bit count of
    nanoseconds, [_PyTime_t]; lengths are rationals here and the conversion
    is exact. *)
Definition PyTime_MIN : Q := -9223372036854775808.
Definition PyTime_MAX : Q := 9223372036854775807.
Definition SEC_TO_NS : Q := 1000000000.

Definition fits_PyTime (seconds : Q) : bool :=
  Qle_bool PyTime_MIN (seconds * SEC_TO_NS) &&
  Qle_bool (seconds * SEC_TO_NS) PyTime_MAX.

(** [time.sleep]: a length that does not convert is an [OverflowError], and
    a negative one that does is a [ValueError]. *)
Definition sleep (seconds : Q) : M unit := fun st =>
  if fits_PyTime seconds then
    if Qle_bool 0 seconds then (Ok tt, emit (ESleep seconds) st)
    else (Raise ValueError, st)
  else (Raise OverflowError, st).

(** [print(f"Error in completion_create_retry: {e}")] *)
Definition print_error (e : exn) : M unit := fun st =>
  (Ok tt, emit (EPrintError e) st).

(** A run of a loop that may go on forever: finished, or still going after
    the given number of rounds. *)
Inductive run (A : Type) : Type :=
| Done (r : result A) (st : state)
| Spinning (st : state).
Arguments Done {A} r st.
Arguments Spinning {A} st.

(** ** The three operations *)

Section Gateway.

Variable env : environment.

(** [client.chat.completions.create] on the keyword arguments [p] *)
Definition client_create (p : payload) : M api_response := fun st =>
  (create env (created st) p,
   {| created := S (created st); log := log st ++ [ECreate p] |}).

(** The legacy list of choices, numbered by [enumerate]. *)
Definition enumerate_choices (cs : list api_choice) : list legacy_choice :=
  imap (fun i choice =>
          {| text := message_content choice;
             index := i;
             logprobs := VNone;
             finish_reason := api_finish_reason choice |}) cs.

Definition usage_dict (u : option usage_counts) : option usage_counts :=
  match u with
  | Some u => Some {| prompt_tokens := prompt_tokens u;
                      completion_tokens := completion_tokens u;
                      total_tokens := total_tokens u |}
  | None => None
  end.

Definition legacy_of (response : api_response) : legacy_response :=
  {| choices := enumerate_choices (api_choices response);
     model := api_model response;
     usage := usage_dict (api_usage response) |}.

(** *** tenacity *)

(** [stop_after_attempt(max_attempt_number)] *)
Definition stop_after_attempt (max_attempt_number attempt_number : nat) : bool :=
  (max_attempt_number <=? attempt_number)%nat.

(** [wait_exponential(multiplier, max, exp_base, min)] *)
Definition wait_exponential (multiplier max exp_base min : Q)
    (attempt_number : nat) : Q :=
  let exp := Qpower exp_base (Z.of_nat (attempt_number - 1)) in
  let result := (multiplier * exp)%Q in
  Qmax (Qmax 0 min) (Qmin result max).

(** [wait_random_exponential(min, max)]: [random.uniform(min, high)], that
    is [min + (high - min) * random.random()], [high] being the exponential
    wait with multiplier 1 and base 2.  (Releases of tenacity that draw from
    [0] instead of [min] give waits within the same upper bounds.) *)
Definition wait_random_exponential (min max : Q) (attempt_number : nat) : Q :=
  let high := wait_exponential 1 max 2 min attempt_number in
  (min + (high - min) * jitter env attempt_number)%Q.

(** [@retry(wait=wait, stop=stop)] around [fn], from attempt
    [attempt_number] on, with tenacity's defaults for the rest: every
    [Exception] is retried and the sleep is [time.sleep].  A result is
    returned as it is.  An exception makes the attempt a failed one: when
    [stop] says so tenacity raises [RetryError] around it ([reraise] is not
    set), otherwise it sleeps [wait] and calls [fn] again.  [budget] bounds
    the recursion; it is never exhausted when [stop] fires within [budget]
    attempts. *)
Fixpoint retry_from {A : Type} (wait : nat -> Q) (stop : nat -> bool)
    (budget attempt_number : nat) (fn : M A) : M A := fun st =>
  match fn st with
  | (Ok a, st1) => (Ok a, st1)
  | (Raise e, st1) =>
      if stop attempt_number then (Raise (RetryError e), st1)
      else
        match budget with
        | O => (Raise (RetryError e), st1)
        | S budget' =>
            (sleep (wait attempt_number) ;;;
             retry_from wait stop budget' (S attempt_number) fn) st1
        end
  end.

(** *** completion_with_backoff *)

Definition backoff_new_kwargs (kw : kwargs) : payload :=
  let prompt := kwargs_get_or kw "prompt" (VStr "") in
  let messages := user_message prompt in
  remove_None
    [ ("model", kwargs_get_or kw "model" (VStr "gpt-3.5-turbo"));
      ("messages", messages);
      ("max_tokens", kwargs_get kw "max_tokens");
      ("temperature", kwargs_get kw "temperature");
      ("top_p", kwargs_get kw "top_p");
      ("n", kwargs_get kw "n");
      ("stop", kwargs_get kw "stop");
      ("presence_penalty", kwargs_get kw "presence_penalty");
      ("frequency_penalty", kwargs_get kw "frequency_penalty");
      ("logit_bias", kwargs_get kw "logit_bias") ].

(** The undecorated body. *)
Definition completion_attempt (kw : kwargs) : M legacy_response :=
  response <- client_create (backoff_new_kwargs kw) ;;
  ret (legacy_of response).

Definition completion_with_backoff (kw : kwargs) : M legacy_response :=
  retry_from (wait_random_exponential 1 60) (stop_after_attempt 10) 10 1
    (completion_attempt kw).

(** *** delayed_completion_with_backoff *)

Definition delayed_completion_with_backoff (delay_in_seconds : option Q)
    (kw : kwargs) : M legacy_response :=
  sleep (default 1%Q delay_in_seconds) ;;;
  completion_with_backoff kw.

(** *** completion_create_retry *)

Definition is_local_model (kw : kwargs) : M bool :=
  m <- lift (kwargs_item kw "model") ;;
  b <- lift (py_in "llama" m) ;;
  if b : bool then ret true else
  m <- lift (kwargs_item kw "model") ;;
  b <- lift (py_in "vicuna" m) ;;
  if b : bool then ret true else
  m <- lift (kwargs_item kw "model") ;;
  lift (py_in "alpaca" m).

Fixpoint first_of_each (ps : list pyval) : result (list pyval) :=
  match ps with
  | [] => Ok []
  | prompt :: rest =>
      match getitem0 prompt with
      | Ok x =>
          match first_of_each rest with
          | Ok xs => Ok (x :: xs)
          | Raise e => Raise e
          end
      | Raise e => Raise e
      end
  end.

Definition call_endpoint (endpoint prompts : pyval) (kw : kwargs) : M retval :=
  match endpoint with
  | VCallable f => fun st =>
      (match call env f prompts kw with
       | Ok v => Ok (FromEndpoint v)
       | Raise e => Raise e
       end,
       emit (EEndpoint f prompts kw) st)
  | _ => raise TypeError
  end.

(** The [if type(kwargs['prompt'][0]) == list] normalisation. *)
Definition unwrap_prompts (kw : kwargs) : result pyval :=
  match kwargs_item kw "prompt" with
  | Raise e => Raise e
  | Ok p =>
      match getitem0 p with
      | Raise e => Raise e
      | Ok first =>
          if is_list first then
            match p with
            | VList ps =>
                match first_of_each ps with
                | Ok xs => Ok (VList xs)
                | Raise e => Raise e
                end
            | _ => Raise TypeError
            end
          else Ok p
      end
  end.

Definition local_branch (kw : kwargs) : M retval :=
  prompts <- lift (unwrap_prompts kw) ;;
  endpoint <- lift (kwargs_item kw "endpoint") ;;
  call_endpoint endpoint prompts kw.

Definition batch_new_kwargs (kw : kwargs) (p : pyval) : payload :=
  let messages := user_message (VStr (py_str env p)) in
  remove_None
    [ ("model", kwargs_get_or kw "model" (VStr "gpt-3.5-turbo"));
      ("messages", messages);
      ("max_tokens", kwargs_get kw "max_tokens");
      ("temperature", kwargs_get kw "temperature");
      ("top_p", kwargs_get kw "top_p");
      ("stop", kwargs_get kw "stop");
      ("presence_penalty", kwargs_get kw "presence_penalty");
      ("frequency_penalty", kwargs_get kw "frequency_penalty");
      ("logit_bias", kwargs_get kw "logit_bias") ].

Definition single_new_kwargs (kw : kwargs) (prompt : pyval) : payload :=
  let messages := user_message (VStr (py_str env prompt)) in
  remove_None
    [ ("model", kwargs_get_or kw "model" (VStr "gpt-3.5-turbo"));
      ("messages", messages);
      ("max_tokens", kwargs_get kw "max_tokens");
      ("temperature", kwargs_get kw "temperature");
      ("top_p", kwargs_get kw "top_p");
      ("n", kwargs_get kw "n");
      ("stop", kwargs_get kw "stop");
      ("presence_penalty", kwargs_get kw "presence_penalty");
      ("frequency_penalty", kwargs_get kw "frequency_penalty");
      ("logit_bias", kwargs_get kw "logit_bias") ].

Definition choices_at (i : nat) (response : api_response) : list legacy_choice :=
  map (fun choice =>
         {| text := message_content choice;
            index := i;
            logprobs := VNone;
            finish_reason := api_finish_reason choice |})
      (api_choices response).

Definition add_usage (total_usage : usage_counts) (u : option usage_counts)
    : usage_counts :=
  match u with
  | Some u =>
      {| prompt_tokens := prompt_tokens total_usage + prompt_tokens u;
         completion_tokens := completion_tokens total_usage + completion_tokens u;
         total_tokens := total_tokens total_usage + total_tokens u |}
  | None => total_usage
  end.

(** [for i, p in enumerate(prompt)], from position [i] on. *)
Fixpoint batch_loop (kw : kwargs) (i : nat) (ps : list pyval)
    (all_choices : list legacy_choice) (total_usage : usage_counts)
    : M (list legacy_choice * usage_counts) :=
  match ps with
  | [] => ret (all_choices, total_usage)
  | p :: rest =>
      response <- client_create (batch_new_kwargs kw p) ;;
      batch_loop kw (S i) rest
        (all_choices ++ choices_at i response)
        (add_usage total_usage (api_usage response))
  end.

(** The body of the [try]. *)
Definition hosted_attempt (kw : kwargs) : M retval :=
  let prompt := kwargs_get_or kw "prompt" (VStr "") in
  match prompt with
  | VList ps =>
      acc <- batch_loop kw 0 ps [] {| prompt_tokens := 0;
                                      completion_tokens := 0;
                                      total_tokens := 0 |} ;;
      ret (Legacy {| choices := acc.1;
                     model := kwargs_get_or kw "model" (VStr "gpt-3.5-turbo");
                     usage := Some acc.2 |})
  | _ =>
      response <- client_create (single_new_kwargs kw prompt) ;;
      ret (Legacy (legacy_of response))
  end.

(** [while True: try: ... except Exception as e: print(...); sleep(...)] *)
Fixpoint retry_forever (rounds : nat) (sleep_time : Q) (kw : kwargs)
    (st : state) : run retval :=
  match rounds with
  | O => Spinning st
  | S rounds' =>
      match hosted_attempt kw st with
      | (Ok r, st1) => Done (Ok r) st1
      | (Raise e, st1) =>
          match (print_error e ;;; sleep sleep_time) st1 with
          | (Ok _, st2) => retry_forever rounds' sleep_time kw st2
          | (Raise e', st2) => Done (Raise e') st2
          end
      end
  end.

Definition completion_create_retry (rounds : nat) (sleep_time : option Q)
    (kw : kwargs) (st : state) : run retval :=
  match is_local_model kw st with
  | (Ok true, st1) =>
      let (r, st2) := local_branch kw st1 in Done r st2
  | (Ok false, st1) => retry_forever rounds (default 5%Q sleep_time) kw st1
  | (Raise e, st1) => Done (Raise e) st1
  end.

End Gateway.

(** ** Vocabulary of the properties *)

(** Number of completions a payload asks the API for. *)
Definition requested_n (p : payload) : nat :=
  match payload_lookup "n" p with
  | Some (VInt z) => Z.to_nat z
  | _ => 1
  end.

(** The same, read off the caller's [n] (default 1). *)
Definition requested (kw : kwargs) : nat :=
  match kwargs_get kw "n" with
  | VInt z => Z.to_nat z
  | _ => 1
  end.

(** The contract of the chat-completion endpoint: an answer carries as many
    choices as the payload asked for. *)
Definition api_honours_n (env : environment) : Prop :=
  forall k p r, create env k p = Ok r -> length (api_choices r) = requested_n p.

(** [random.random()] lies in [0, 1). *)
Definition jitter_unit (env : environment) : Prop :=
  forall k, (0 <= jitter env k /\ jitter env k < 1)%Q.

(** The lengths [time.sleep] accepts: not negative, and within the range of
    the nanosecond count. *)
Definition sleepable (seconds : Q) : Prop :=
  (0 <= seconds)%Q /\ (seconds * SEC_TO_NS <= PyTime_MAX)%Q.

(** Upper end of the interval the wait after attempt [k] is drawn from. *)
Definition window (k : nat) : Q := wait_exponential 1 60 2 1 k.

Definition has_marker (m : string) : bool :=
  str_contains "llama" m || str_contains "vicuna" m || str_contains "alpaca" m.

(** What [k] failed attempts of the backoff operation, numbered from [a],
    leave in the log: the call, then the sleep that follows it. *)
Definition failed_attempts (env : environment) (p : payload) (a k : nat)
    : list event :=
  flat_map (fun j => [ECreate p; ESleep (wait_random_exponential env 1 60 j)])
           (seq a k).


(** The first payload a round of the hosted branch sends. *)
Definition first_request (env : environment) (kw : kwargs) : payload :=
  match kwargs_get_or kw "prompt" (VStr "") with
  | VList (p :: _) => batch_new_kwargs env kw p
  | prompt => single_new_kwargs env kw prompt
  end.

Definition sampling_parameters : list string :=
  [ "max_tokens"; "temperature"; "top_p"; "n"; "stop";
    "presence_penalty"; "frequency_penalty"; "logit_bias" ].

Definition no_None (p : payload) : Prop :=
  forall k v, In (k, v) p -> v <> VNone.

Definition unset_omitted (kw : kwargs) (p : payload) : Prop :=
  forall k, In k sampling_parameters -> kwargs_get kw k = VNone ->
            payload_lookup k p = None.

Definition event_ok (P : payload -> Prop) (ev : event) : Prop :=
  match ev with
  | ECreate p => P p
  | _ => True
  end.

Definition is_create (ev : event) : bool :=
  match ev with ECreate _ => true | _ => false end.

Definition final_state {A : Type} (r : run A) : state :=
  match r with
  | Done _ st => st
  | Spinning st => st
  end.

(** Prompts flattened to a plain list, as the specification words it: one
    level of list nesting removed, every prompt kept. *)
Definition spec_flatten (ps : list pyval) : list pyval :=
  flat_map (fun p => match p with VList xs => xs | x => [x] end) ps.

(** Every hosted call a computation makes carries a payload satisfying [P]. *)
Definition sends {A : Type} (P : payload -> Prop) (m : M A) : Prop :=
  forall st, exists evs,
    log (snd (m st)) = log st ++ evs /\ Forall (event_ok P) evs.

Definition well_formed_payload (kw : kwargs) (p : payload) : Prop :=
  no_None p /\ unset_omitted kw p.

(** The value a run handed back, if it did. *)
Definition returned {A : Type} (r : run A) : option A :=
  match r with
  | Done (Ok a) _ => Some a
  | _ => None
  end.




(** The answers to one pass over the prompts, the first call being call
    number [c]. *)
Fixpoint answered (env : environment) (kw : kwargs) (c : nat)
    (ps : list pyval) (rs : list api_response) : Prop :=
  match ps, rs with
  | [], [] => True
  | p :: ps', r :: rs' =>
      create env c (batch_new_kwargs env kw p) = Ok r /\
      answered env kw (S c) ps' rs'
  | _, _ => False
  end.

Fixpoint batch_choices (i : nat) (rs : list api_response) : list legacy_choice :=
  match rs with
  | [] => []
  | r :: rs' => choices_at i r ++ batch_choices (S i) rs'
  end.

Definition zero_usage : usage_counts :=
  {| prompt_tokens := 0; completion_tokens := 0; total_tokens := 0 |}.

Definition sum_usage (rs : list api_response) (total : usage_counts)
    : usage_counts :=
  fold_left (fun t r => add_usage t (api_usage r)) rs total.

(** Sum of one count over the answers that report usage. *)
Definition tokens_sum (f : usage_counts -> Z) (rs : list api_response) : Z :=
  fold_right Z.add 0%Z
    (map (fun r => match api_usage r with Some u => f u | None => 0%Z end) rs).

(** ** Sample environments and requests *)

Definition sample_choice : api_choice :=
  {| message_content := VStr "ok"; api_finish_reason := VStr "stop" |}.

Definition sample_response (p : payload) : api_response :=
  {| api_choices := repeat sample_choice (requested_n p);
     api_model := VStr "gpt-4-0613";
     api_usage := Some {| prompt_tokens := 3;
                          completion_tokens := 4;
                          total_tokens := 7 |} |}.

(** The hosted API fails on its first [failures] calls and answers from then
    on; callable 0 echoes the prompts, every other callable fails. *)
Definition flaky_env (failures : nat) : environment :=
  {| create := fun k p =>
       if (k <? failures)%nat then Raise (APIError "rate limit")
       else Ok (sample_response p);
     call := fun f prompts _ =>
       match f with
       | O => Ok prompts
       | _ => Raise (APIError "endpoint down")
       end;
     jitter := fun _ => 1 # 2;
     py_str := fun v => match v with VStr s => s | _ => "" end |}.

(** The hosted API never answers. *)
Definition dead_env : environment :=
  {| create := fun _ _ => Raise (APIError "rate limit");
     call := fun _ _ _ => Raise (APIError "endpoint down");
     jitter := fun _ => 1 # 2;
     py_str := fun v => match v with VStr s => s | _ => "" end |}.


Definition st0 : state := {| created := 0; log := [] |}.

Definition kw_single : kwargs :=
  list_to_map [("model", VStr "gpt-4"); ("prompt", VStr "hi"); ("n", VInt 2)].

Definition kw_batch : kwargs :=
  list_to_map [("model", VStr "gpt-4");
               ("prompt", VList [VStr "a"; VStr "b"]);
               ("n", VInt 2)].

Definition kw_local : kwargs :=
  list_to_map [("model", VStr "vicuna-7b");
               ("prompt", VList [VList [VStr "a"]; VList [VStr "b"]]);
               ("endpoint", VCallable 0)].

Definition kw_local_pairs : kwargs :=
  list_to_map [("model", VStr "vicuna-7b");
               ("prompt", VList [VList [VStr "a"; VStr "b"]; VList [VStr "c"]]);
               ("endpoint", VCallable 0)].

Definition kw_local_empty : kwargs :=
  list_to_map [("model", VStr "vicuna-7b");
               ("prompt", VStr "");
               ("endpoint", VCallable 0)].


Definition kw_no_model : kwargs :=
  list_to_map [("prompt", VStr "hi")].

Definition kw_null_prompt : kwargs :=
  list_to_map [("model", VStr "gpt-4"); ("prompt", VNone)].


(** ** Further vocabulary: budgets, dispatch and forwarded keys *)

(** Total length of the sleeps recorded in a log. *)
Definition slept (evs : list event) : Q :=
  fold_right (fun ev acc => match ev with
                            | ESleep t => (t + acc)%Q
                            | _ => acc
                            end) 0%Q evs.

(** Sum of the wait windows of the [n] attempts from attempt [a] on. *)
Definition windows_from (a n : nat) : Q :=
  fold_right (fun j acc => (window j + acc)%Q) 0%Q (seq a n).

Definition is_substring (needle hay : string) : Prop :=
  exists pre post, hay = String.append pre (String.append needle post).

Definition markers : list string := ["llama"; "vicuna"; "alpaca"].

(** The keys the module ever puts in an outbound payload. *)
Definition api_keys : list string :=
  [ "model"; "messages"; "max_tokens"; "temperature"; "top_p"; "n"; "stop";
    "presence_penalty"; "frequency_penalty"; "logit_bias" ].

(** [None], booleans and numbers: values without [in]. *)
Definition scalar (v : pyval) : bool :=
  match v with
  | VNone | VBool _ | VInt _ | VFloat _ => true
  | _ => false
  end.

(** Values [in] can be applied to. *)
Definition iterable (v : pyval) : bool :=
  match v with
  | VStr _ | VList _ | VDict _ => true
  | _ => false
  end.


Definition kw_tuned : kwargs :=
  list_to_map [("model", VStr "gpt-4"); ("prompt", VStr "hi");
               ("temperature", VFloat (7 # 10)); ("max_tokens", VInt 64);
               ("user", VStr "alice"); ("endpoint", VCallable 0)].

Definition kw_none_model : kwargs :=
  list_to_map [("model", VNone); ("prompt", VStr "hi")].

Definition kw_empty_batch : kwargs :=
  list_to_map [("model", VStr "gpt-4"); ("prompt", VList [])].

Definition kw_local_no_endpoint : kwargs :=
  list_to_map [("model", VStr "alpaca-13b"); ("prompt", VList [VStr "a"])].

Definition kw_bare : kwargs :=
  list_to_map [("model", VStr "gpt-4")].


(** ** The waits of the backoff *)

Lemma window_bounds (k : nat) : (1 <= window k /\ window k <= 60)%Q.
Proof.
  unfold window, wait_exponential. split.
  - eapply Qle_trans; [| apply Q.le_max_l].
    apply Q.le_max_r.
  - apply Q.max_lub.
    + apply Q.max_lub; discriminate.
    + apply Q.le_min_r.
Qed.

Lemma window_first : (window 1 == 1)%Q.
Proof. reflexivity. Qed.

Lemma window_doubles (k : nat) :
  (window (S k) == Qmin (2 ^ Z.of_nat k) 60)%Q.
Proof.
  unfold window, wait_exponential.
  replace (S k - 1)%nat with k by lia.
  assert (H2 : (1 <= 2 ^ Z.of_nat k)%Q).
  { apply Qpower_1_le; [discriminate | lia]. }
  rewrite Qmult_1_l.
  apply Q.max_r.
  apply Q.max_lub; [| apply Q.min_glb; [exact H2 | discriminate]].
  eapply Qle_trans; [| apply Q.min_glb; [exact H2 | discriminate]].
  discriminate.
Qed.

Lemma wait_in_window (env : environment) (k : nat) :
  jitter_unit env ->
  (1 <= wait_random_exponential env 1 60 k /\
   wait_random_exponential env 1 60 k <= window k)%Q.
Proof.
  intros Hj. destruct (Hj k) as [H0 H1].
  destruct (window_bounds k) as [Hlo _].
  unfold wait_random_exponential. fold (window k).
  split; nra.
Qed.

Lemma sleepable_fits (t : Q) : sleepable t -> fits_PyTime t = true.
Proof.
  intros [H0 Hmax]. unfold fits_PyTime. apply andb_true_iff.
  split; apply Qle_bool_iff; [| exact Hmax].
  unfold PyTime_MIN, SEC_TO_NS. lra.
Qed.

Lemma sleep_ok (t : Q) (st : state) :
  sleepable t -> sleep t st = (Ok tt, emit (ESleep t) st).
Proof.
  intros Ht. unfold sleep. rewrite (sleepable_fits t Ht).
  destruct Ht as [H0 _]. apply Qle_bool_iff in H0. by rewrite H0.
Qed.

(** A sleep either happens and is logged, or raises and leaves no trace. *)
Lemma sleep_cases (t : Q) (st : state) :
  sleep t st = (Ok tt, emit (ESleep t) st) \/
  exists e, sleep t st = (Raise e, st).
Proof.
  unfold sleep. destruct (fits_PyTime t); [destruct (Qle_bool 0 t) |]; eauto.
Qed.

Ltac case_sleep :=
  match goal with
  | |- context [sleep ?t ?s] =>
      let Hs := fresh "Hs" in
      let e := fresh "e" in
      destruct (sleep_cases t s) as [Hs | [e Hs]]; rewrite Hs; clear Hs
  end.

Lemma sleep_wait_ok (env : environment) (k : nat) (st : state) :
  jitter_unit env ->
  sleep (wait_random_exponential env 1 60 k) st =
  (Ok tt, emit (ESleep (wait_random_exponential env 1 60 k)) st).
Proof.
  intros Hj. apply sleep_ok.
  destruct (wait_in_window env k Hj) as [H1 H2].
  destruct (window_bounds k) as [_ H3].
  unfold sleepable, SEC_TO_NS, PyTime_MAX. split; lra.
Qed.

(** ** The bounded retry *)

Lemma retry_from_eq {A : Type} (wait : nat -> Q) (stop : nat -> bool)
    (budget a : nat) (fn : M A) (st : state) :
  retry_from wait stop budget a fn st =
  match fn st with
  | (Ok x, st1) => (Ok x, st1)
  | (Raise e, st1) =>
      if stop a then (Raise (RetryError e), st1)
      else
        match budget with
        | O => (Raise (RetryError e), st1)
        | S budget' =>
            bind (sleep (wait a))
                 (fun _ => retry_from wait stop budget' (S a) fn) st1
        end
  end.
Proof. destruct budget; reflexivity. Qed.

(** Ten attempts never exhaust a budget that reaches the tenth. *)
Lemma retry_from_budget {A : Type} (wait : nat -> Q) (fn : M A) :
  forall (b1 b2 a : nat) (st : state),
    (10 <= a + b1)%nat -> (10 <= a + b2)%nat ->
    retry_from wait (stop_after_attempt 10) b1 a fn st =
    retry_from wait (stop_after_attempt 10) b2 a fn st.
Proof.
  induction b1 as [| b1 IH]; intros b2 a st H1 H2;
    rewrite !retry_from_eq; destruct (fn st) as [[x | e] st1]; try done;
    destruct (stop_after_attempt 10 a) eqn:Hstop; try done;
    unfold stop_after_attempt in Hstop; apply Nat.leb_gt in Hstop;
    [lia |].
  destruct b2 as [| b2]; [lia |].
  unfold bind. destruct (sleep (wait a) st1) as [[[] | e'] st2]; [| done].
  apply IH; lia.
Qed.

Lemma completion_attempt_eq (env : environment) (kw : kwargs) (st : state) :
  completion_attempt env kw st =
  (match create env (created st) (backoff_new_kwargs kw) with
   | Ok response => Ok (legacy_of response)
   | Raise e => Raise e
   end,
   {| created := S (created st);
      log := log st ++ [ECreate (backoff_new_kwargs kw)] |}).
Proof.
  unfold completion_attempt, bind, client_create, ret.
  by destruct (create env (created st) (backoff_new_kwargs kw)).
Qed.

(** [k] failing attempts, none of them the tenth, leave the loop where it
    was, [k] attempts later. *)
Lemma backoff_failed_prefix (env : environment) (kw : kwargs) :
  jitter_unit env ->
  forall (k : nat) (errs : nat -> exn) (budget a : nat) (st : state),
    (forall i, (i < k)%nat ->
       create env (created st + i) (backoff_new_kwargs kw) = Raise (errs i)) ->
    (a + k <= 10)%nat -> (k <= budget)%nat ->
    retry_from (wait_random_exponential env 1 60) (stop_after_attempt 10)
      budget a (completion_attempt env kw) st =
    retry_from (wait_random_exponential env 1 60) (stop_after_attempt 10)
      (budget - k) (a + k) (completion_attempt env kw)
      {| created := created st + k;
         log := log st ++ failed_attempts env (backoff_new_kwargs kw) a k |}.
Proof.
  intros Hj k. induction k as [| k IH]; intros errs budget a st Hfail Ha Hb.
  - rewrite Nat.sub_0_r, !Nat.add_0_r. unfold failed_attempts. simpl.
    rewrite app_nil_r. by destruct st.
  - destruct budget as [| budget]; [lia |].
    rewrite retry_from_eq, completion_attempt_eq.
    specialize (Hfail 0%nat ltac:(lia)) as H0. rewrite Nat.add_0_r in H0.
    rewrite H0.
    assert (Hstop : stop_after_attempt 10 a = false).
    { unfold stop_after_attempt. apply Nat.leb_gt. lia. }
    rewrite Hstop. unfold bind. rewrite sleep_wait_ok by exact Hj.
    rewrite (IH (fun i => errs (S i))).
    + simpl created. simpl log.
      replace (S budget - S k)%nat with (budget - k)%nat by lia.
      replace (S a + k)%nat with (a + S k)%nat by lia.
      replace (S (created st) + k)%nat with (created st + S k)%nat by lia.
      unfold failed_attempts. simpl flat_map.
      by rewrite <- !app_assoc.
    + intros i Hi. simpl created.
      replace (S (created st) + i)%nat with (created st + S i)%nat by lia.
      apply Hfail. lia.
    + lia.
    + lia.
Qed.

Lemma completion_with_backoff_ok_inv (env : environment) (kw : kwargs) :
  forall (budget a : nat) (st : state) (r : legacy_response) (st' : state),
    retry_from (wait_random_exponential env 1 60) (stop_after_attempt 10)
      budget a (completion_attempt env kw) st = (Ok r, st') ->
    exists c response,
      create env c (backoff_new_kwargs kw) = Ok response /\
      r = legacy_of response.
Proof.
  induction budget as [| budget IH]; intros a st r st';
    rewrite retry_from_eq, completion_attempt_eq;
    destruct (create env (created st) (backoff_new_kwargs kw)) as [resp | e] eqn:Hc.
  - intros [= <- _]. eauto.
  - destruct (stop_after_attempt 10 a); discriminate.
  - intros [= <- _]. eauto.
  - destruct (stop_after_attempt 10 a); [discriminate |].
    unfold bind. case_sleep; [apply IH | discriminate].
Qed.

(** ** Outcomes do not depend on the log *)







Lemma jitter_unit_half (env : environment) :
  (forall k, jitter env k = 1 # 2) -> jitter_unit env.
Proof. intros H k. rewrite H. split; [discriminate | reflexivity]. Qed.

(** ** completion_with_backoff: the retry policy *)

(** C1, as the code has it.  When each of the ten attempts fails, the
    operation makes exactly ten hosted calls, sleeps after each of the first
    nine for a wait drawn between 0 and a window that starts at 1, doubles
    and is capped at 60, and then raises tenacity's [RetryError] wrapping the
    error of the tenth attempt. *)
Theorem backoff_exhausted (env : environment) (kw : kwargs) (st : state)
    (errs : nat -> exn) :
  jitter_unit env ->
  (forall i, (i < 10)%nat ->
     create env (created st + i) (backoff_new_kwargs kw) = Raise (errs i)) ->
  completion_with_backoff env kw st =
    (Raise (RetryError (errs 9%nat)),
     {| created := created st + 10;
        log := log st ++
               failed_attempts env (backoff_new_kwargs kw) 1 9 ++
               [ECreate (backoff_new_kwargs kw)] |}) /\
  (forall k, (0 <= wait_random_exponential env 1 60 k /\
              wait_random_exponential env 1 60 k <= window k /\
              window k <= 60)%Q) /\
  (window 1 == 1)%Q /\
  (forall k, (window (S k) == Qmin (2 ^ Z.of_nat k) 60)%Q).
Proof.
  intros Hj Hfail. split; [| split; [| split]].
  - unfold completion_with_backoff.
    rewrite (backoff_failed_prefix env kw Hj 9 errs 10 1 st); [| | lia | lia].
    + rewrite retry_from_eq, completion_attempt_eq. simpl created.
      rewrite (Hfail 9%nat) by lia. simpl.
      replace (S (created st + 9)) with (created st + 10)%nat by lia.
      by rewrite <- app_assoc.
    + intros i Hi. apply Hfail. lia.
  - intros k. destruct (wait_in_window env k Hj) as [H1 H2].
    destruct (window_bounds k) as [_ H3].
    repeat split; [| exact H2 | exact H3].
    eapply Qle_trans; [| exact H1]. discriminate.
  - apply window_first.
  - apply window_doubles.
Qed.

Lemma backoff_exhausted_witness :
  jitter_unit dead_env /\
  fst (completion_with_backoff dead_env kw_single st0) =
    Raise (RetryError (APIError "rate limit")) /\
  length (List.filter is_create
            (log (snd (completion_with_backoff dead_env kw_single st0)))) = 10%nat.
Proof.
  assert (Hj : jitter_unit dead_env) by (apply jitter_unit_half; reflexivity).
  split; [exact Hj |].
  destruct (backoff_exhausted dead_env kw_single st0
              (fun _ => APIError "rate limit") Hj (fun i _ => eq_refl))
    as [H _].
  rewrite H. split; reflexivity.
Defined.

(** C1 as stated fails: after ten failures the caller does not receive the
    underlying error itself. *)
Lemma exhausted_caller_gets_wrapper :
  (forall i, (i < 10)%nat ->
     create dead_env (created st0 + i) (backoff_new_kwargs kw_single) =
     Raise (APIError "rate limit")) /\
  fst (completion_with_backoff dead_env kw_single st0) =
    Raise (RetryError (APIError "rate limit")) /\
  fst (completion_with_backoff dead_env kw_single st0) <>
    Raise (APIError "rate limit").
Proof. split; [reflexivity | split; [reflexivity | discriminate]]. Qed.

(** C7.  When the hosted call fails on fewer than ten consecutive attempts
    and then succeeds, the operation returns the legacy form of that
    successful answer, after exactly that many sleeps. *)
Theorem backoff_recovers (env : environment) (kw : kwargs) (st : state)
    (errs : nat -> exn) (k : nat) (response : api_response) :
  jitter_unit env ->
  (k < 10)%nat ->
  (forall i, (i < k)%nat ->
     create env (created st + i) (backoff_new_kwargs kw) = Raise (errs i)) ->
  create env (created st + k) (backoff_new_kwargs kw) = Ok response ->
  completion_with_backoff env kw st =
    (Ok (legacy_of response),
     {| created := created st + S k;
        log := log st ++
               failed_attempts env (backoff_new_kwargs kw) 1 k ++
               [ECreate (backoff_new_kwargs kw)] |}).
Proof.
  intros Hj Hk Hfail Hok.
  unfold completion_with_backoff.
  rewrite (backoff_failed_prefix env kw Hj k errs 10 1 st Hfail); [| lia | lia].
  rewrite retry_from_eq, completion_attempt_eq. simpl created.
  rewrite Hok. simpl.
  replace (S (created st + k)) with (created st + S k)%nat by lia.
  by rewrite <- app_assoc.
Qed.

Lemma backoff_recovers_witness :
  jitter_unit (flaky_env 3) /\
  fst (completion_with_backoff (flaky_env 3) kw_single st0) =
    Ok (legacy_of (sample_response (backoff_new_kwargs kw_single))) /\
  created (snd (completion_with_backoff (flaky_env 3) kw_single st0)) = 4%nat.
Proof.
  assert (Hj : jitter_unit (flaky_env 3)) by (apply jitter_unit_half; reflexivity).
  split; [exact Hj |].
  assert (Hfail : forall i, (i < 3)%nat ->
            create (flaky_env 3) (created st0 + i) (backoff_new_kwargs kw_single) =
            Raise (APIError "rate limit")).
  { intros i Hi. simpl. apply Nat.ltb_lt in Hi. by rewrite Hi. }
  rewrite (backoff_recovers (flaky_env 3) kw_single st0
             (fun _ => APIError "rate limit") 3
             (sample_response (backoff_new_kwargs kw_single))
             Hj ltac:(lia) Hfail eq_refl).
  split; reflexivity.
Defined.

(** ** delayed_completion_with_backoff *)






(** ** completion_create_retry: dispatch and the unbounded retry *)

Lemma is_local_model_str (kw : kwargs) (m : string) (st : state) :
  kw !! "model" = Some (VStr m) ->
  is_local_model kw st = (Ok (has_marker m), st).
Proof.
  intros Hm. unfold is_local_model, bind, lift, kwargs_item, has_marker.
  rewrite Hm. simpl.
  destruct (str_contains "llama" m); [done |].
  destruct (str_contains "vicuna" m); done.
Qed.







(** ** Payloads *)

Lemma payload_lookup_absent (k : string) (d : payload) :
  ~ In k (map fst d) -> payload_lookup k d = None.
Proof.
  induction d as [| [k' v] d IH]; simpl; intros Hk; [done |].
  destruct (String.eqb_spec k k') as [-> | Hne].
  - exfalso. apply Hk. by left.
  - apply IH. intros Hin. apply Hk. by right.
Qed.

Lemma remove_None_keys (k : string) (d : payload) :
  In k (map fst (remove_None d)) -> In k (map fst d).
Proof.
  induction d as [| [k' v] d IH]; simpl; [done |].
  destruct (is_not_None v); simpl; tauto.
Qed.

(** Filtering the [None] values drops a key bound to [None] and leaves the
    other bindings as they were. *)
Lemma payload_lookup_remove_None (k : string) (d : payload) :
  List.NoDup (map fst d) ->
  payload_lookup k (remove_None d) =
  match payload_lookup k d with
  | Some VNone => None
  | o => o
  end.
Proof.
  induction d as [| [k' v] d IH]; simpl; intros Hnd; [done |].
  inversion Hnd as [| ? ? Hnotin Hnd']; subst.
  destruct (String.eqb_spec k k') as [-> | Hne].
  - destruct v; simpl; rewrite ?String.eqb_refl; try done.
    apply payload_lookup_absent. intros Hin. apply Hnotin.
    by apply remove_None_keys.
  - rewrite <- (IH Hnd').
    destruct (is_not_None v); simpl; [| done].
    by destruct (String.eqb_spec k k').
Qed.

Lemma remove_None_no_None (d : payload) : no_None (remove_None d).
Proof.
  intros k v Hin. unfold remove_None in Hin.
  apply filter_In in Hin as [_ Hv]. simpl in Hv.
  by intros ->.
Qed.

Lemma batch_new_kwargs_no_n (env : environment) (kw : kwargs) (p : pyval) :
  payload_lookup "n" (batch_new_kwargs env kw p) = None.
Proof.
  apply payload_lookup_absent. intros Hin.
  apply remove_None_keys in Hin. simpl in Hin.
  repeat (destruct Hin as [Hin | Hin]; [discriminate Hin |]).
  exact Hin.
Qed.

Lemma batch_requested_one (env : environment) (kw : kwargs) (p : pyval) :
  requested_n (batch_new_kwargs env kw p) = 1%nat.
Proof. unfold requested_n. by rewrite batch_new_kwargs_no_n. Qed.

Lemma keys_distinct_backoff :
  List.NoDup [ "model"; "messages"; "max_tokens"; "temperature"; "top_p"; "n";
               "stop"; "presence_penalty"; "frequency_penalty"; "logit_bias" ].
Proof. repeat (constructor; [simpl; intuition discriminate |]). constructor. Qed.

Lemma keys_distinct_batch :
  List.NoDup [ "model"; "messages"; "max_tokens"; "temperature"; "top_p";
               "stop"; "presence_penalty"; "frequency_penalty"; "logit_bias" ].
Proof. repeat (constructor; [simpl; intuition discriminate |]). constructor. Qed.

Lemma backoff_new_kwargs_n (kw : kwargs) :
  payload_lookup "n" (backoff_new_kwargs kw) =
  match kwargs_get kw "n" with
  | VNone => None
  | v => Some v
  end.
Proof.
  unfold backoff_new_kwargs.
  rewrite payload_lookup_remove_None by exact keys_distinct_backoff.
  simpl. by destruct (kwargs_get kw "n").
Qed.

Lemma single_new_kwargs_n (env : environment) (kw : kwargs) (prompt : pyval) :
  payload_lookup "n" (single_new_kwargs env kw prompt) =
  match kwargs_get kw "n" with
  | VNone => None
  | v => Some v
  end.
Proof.
  unfold single_new_kwargs.
  rewrite payload_lookup_remove_None by exact keys_distinct_backoff.
  simpl. by destruct (kwargs_get kw "n").
Qed.

Lemma backoff_requested (kw : kwargs) :
  requested_n (backoff_new_kwargs kw) = requested kw.
Proof.
  unfold requested_n, requested. rewrite backoff_new_kwargs_n.
  by destruct (kwargs_get kw "n").
Qed.

Lemma single_requested (env : environment) (kw : kwargs) (prompt : pyval) :
  requested_n (single_new_kwargs env kw prompt) = requested kw.
Proof.
  unfold requested_n, requested. rewrite single_new_kwargs_n.
  by destruct (kwargs_get kw "n").
Qed.

(** ** One pass over a list of prompts *)

Lemma batch_loop_answered (env : environment) (kw : kwargs) :
  forall (ps : list pyval) (rs : list api_response) (i : nat)
         (acc : list legacy_choice) (tot : usage_counts) (st : state),
    answered env kw (created st) ps rs ->
    batch_loop env kw i ps acc tot st =
    (Ok (acc ++ batch_choices i rs, sum_usage rs tot),
     {| created := created st + length ps;
        log := log st ++ map (fun p => ECreate (batch_new_kwargs env kw p)) ps |}).
Proof.
  induction ps as [| p ps IH]; intros [| r rs] i acc tot st Hans;
    simpl in Hans; try done.
  - simpl. unfold ret. rewrite Nat.add_0_r, !app_nil_r. by destruct st.
  - destruct Hans as [Hc Hans]. simpl.
    unfold bind at 1. unfold client_create at 1. rewrite Hc.
    rewrite (IH rs); [| exact Hans]. simpl.
    rewrite <- !app_assoc. simpl.
    replace (S (created st + length ps))%nat
      with (created st + S (length ps))%nat by lia. done.
Qed.

Lemma batch_loop_ok_inv (env : environment) (kw : kwargs) :
  forall (ps : list pyval) (i : nat) (acc : list legacy_choice)
         (tot : usage_counts) (st : state) cs u st',
    batch_loop env kw i ps acc tot st = (Ok (cs, u), st') ->
    exists rs, answered env kw (created st) ps rs /\
               cs = acc ++ batch_choices i rs /\
               u = sum_usage rs tot.
Proof.
  induction ps as [| p ps IH]; intros i acc tot st cs u st'; simpl.
  - unfold ret. intros [= <- <- _]. exists []. simpl.
    by rewrite app_nil_r.
  - unfold bind at 1. unfold client_create at 1.
    destruct (create env (created st) (batch_new_kwargs env kw p)) as [r | e] eqn:Hc;
      [| discriminate].
    intros H. apply IH in H as (rs & Hans & -> & ->).
    exists (r :: rs). simpl. by rewrite <- app_assoc.
Qed.

Lemma answered_length (env : environment) (kw : kwargs) :
  forall ps rs c, answered env kw c ps rs -> length rs = length ps.
Proof.
  induction ps as [| p ps IH]; intros [| r rs] c; simpl; try done.
  intros [_ H]. f_equal. by eapply IH.
Qed.

Lemma answered_one_choice (env : environment) (kw : kwargs) :
  api_honours_n env ->
  forall ps rs c, answered env kw c ps rs ->
    Forall (fun r => length (api_choices r) = 1%nat) rs.
Proof.
  intros Hapi. induction ps as [| p ps IH]; intros [| r rs] c; simpl; try done.
  intros [Hc H]. constructor; [| by eapply IH].
  rewrite (Hapi _ _ _ Hc). apply batch_requested_one.
Qed.

(** With one choice per answer, the choices of a pass line up with the
    prompts. *)
Lemma batch_choices_one_each :
  forall (rs : list api_response) (i : nat),
    Forall (fun r => length (api_choices r) = 1%nat) rs ->
    length (batch_choices i rs) = length rs /\
    forall j ch, batch_choices i rs !! j = Some ch ->
      index ch = (i + j)%nat /\
      exists r c0, rs !! j = Some r /\ api_choices r = [c0] /\
                   text ch = message_content c0 /\
                   finish_reason ch = api_finish_reason c0.
Proof.
  induction rs as [| r rs IH]; intros i Hone.
  - split; [done |]. intros j ch. simpl. by rewrite lookup_nil.
  - inversion Hone as [| ? ? Hr Hrs]; subst.
    destruct (IH (S i) Hrs) as [Hlen Hidx].
    destruct (api_choices r) as [| c0 [| c1 cs]] eqn:Hcs; try discriminate.
    simpl. unfold choices_at. rewrite Hcs. simpl. split; [by rewrite Hlen |].
    intros [| j] ch; simpl.
    + intros [= <-]. simpl. split; [lia |]. by exists r, c0.
    + intros H. destruct (Hidx j ch H) as [Hi Hrest].
      split; [lia | exact Hrest].
Qed.

Lemma sum_usage_tokens :
  forall (rs : list api_response) (tot : usage_counts),
    prompt_tokens (sum_usage rs tot) =
      (prompt_tokens tot + tokens_sum prompt_tokens rs)%Z /\
    completion_tokens (sum_usage rs tot) =
      (completion_tokens tot + tokens_sum completion_tokens rs)%Z /\
    total_tokens (sum_usage rs tot) =
      (total_tokens tot + tokens_sum total_tokens rs)%Z.
Proof.
  induction rs as [| r rs IH]; intros tot.
  - unfold tokens_sum. simpl. lia.
  - unfold sum_usage. simpl. fold (sum_usage rs (add_usage tot (api_usage r))).
    destruct (IH (add_usage tot (api_usage r))) as (H1 & H2 & H3).
    rewrite H1, H2, H3. unfold tokens_sum. simpl.
    destruct (api_usage r); simpl; lia.
Qed.


(** ** What a finished run of the hosted branch handed back *)

Lemma retry_forever_done_inv (env : environment) (t : Q) (kw : kwargs) :
  forall (rounds : nat) (st : state) (v : retval) (st' : state),
    retry_forever env rounds t kw st = Done (Ok v) st' ->
    exists st_pass,
      hosted_attempt env kw st_pass = (Ok v, st') /\
      exists before, log st_pass = log st ++ before.
Proof.
  induction rounds as [| rounds IH]; intros st v st'; simpl; [discriminate |].
  destruct (hosted_attempt env kw st) as [[r | e] st1] eqn:Hatt.
  - intros [= <- <-]. exists st. split; [done |]. exists []. by rewrite app_nil_r.
  - assert (Hlog1 : exists evs, log st1 = log st ++ evs).
    { revert Hatt. unfold hosted_attempt.
      destruct (kwargs_get_or kw "prompt" (VStr "")) eqn:Hp;
        try (unfold bind, client_create;
             destruct (create env (created st) _); intros [= _ <-]; simpl; eauto).
      unfold bind.
      destruct (batch_loop env kw 0 l [] _ st) as [[acc | e0] st2] eqn:Hb;
        [discriminate |].
      intros [= _ <-].
      clear Hp. revert Hb. generalize 0%nat, (@nil legacy_choice),
        {| prompt_tokens := 0; completion_tokens := 0; total_tokens := 0 |}.
      revert st. induction l as [| p ps IHps]; intros st i acc0 tot; simpl.
      - discriminate.
      - unfold bind at 1. unfold client_create at 1.
        destruct (create env (created st) (batch_new_kwargs env kw p)).
        + intros H. apply IHps in H as [evs Hevs]. simpl in Hevs.
          exists (ECreate (batch_new_kwargs env kw p) :: evs).
          rewrite Hevs. by rewrite <- app_assoc.
        + intros [= _ <-]. simpl. eauto. }
    unfold bind, print_error. case_sleep; [| discriminate].
    intros H. apply IH in H as (st_pass & Hpass & before & Hbefore).
    exists st_pass. split; [done |].
    destruct Hlog1 as [evs Hevs]. simpl in Hbefore. rewrite Hevs in Hbefore.
    eexists. rewrite Hbefore. by rewrite <- !app_assoc.
Qed.

Lemma hosted_attempt_list (env : environment) (kw : kwargs) (ps : list pyval)
    (m : string) (st : state) :
  kw !! "model" = Some (VStr m) ->
  kw !! "prompt" = Some (VList ps) ->
  hosted_attempt env kw st =
  match batch_loop env kw 0 ps [] zero_usage st with
  | (Ok acc, st1) =>
      (Ok (Legacy {| choices := acc.1; model := VStr m; usage := Some acc.2 |}), st1)
  | (Raise e, st1) => (Raise e, st1)
  end.
Proof.
  intros Hm Hp. unfold hosted_attempt, kwargs_get_or. rewrite Hp, Hm. simpl.
  unfold bind, ret. fold zero_usage.
  by destruct (batch_loop env kw 0 ps [] zero_usage st) as [[acc | e] st1].
Qed.

Lemma hosted_attempt_single (env : environment) (kw : kwargs) (st : state) :
  is_list (kwargs_get_or kw "prompt" (VStr "")) = false ->
  hosted_attempt env kw st =
  (match create env (created st)
           (single_new_kwargs env kw (kwargs_get_or kw "prompt" (VStr ""))) with
   | Ok response => Ok (Legacy (legacy_of response))
   | Raise e => Raise e
   end,
   {| created := S (created st);
      log := log st ++
             [ECreate (single_new_kwargs env kw
                         (kwargs_get_or kw "prompt" (VStr "")))] |}).
Proof.
  unfold hosted_attempt.
  destruct (kwargs_get_or kw "prompt" (VStr "")) eqn:Hp; try discriminate;
    intros _; unfold bind, client_create, ret;
    by destruct (create env (created st) _).
Qed.

Lemma batch_run_inv (env : environment) (rounds : nat) (sleep_time : option Q)
    (kw : kwargs) (m : string) (ps : list pyval) (st : state)
    (v : retval) (st' : state) :
  kw !! "model" = Some (VStr m) ->
  has_marker m = false ->
  kw !! "prompt" = Some (VList ps) ->
  completion_create_retry env rounds sleep_time kw st = Done (Ok v) st' ->
  exists st_pass rs,
    (exists before, log st_pass = log st ++ before) /\
    answered env kw (created st_pass) ps rs /\
    v = Legacy {| choices := batch_choices 0 rs;
                  model := VStr m;
                  usage := Some (sum_usage rs zero_usage) |} /\
    st' = {| created := created st_pass + length ps;
             log := log st_pass ++
                    map (fun p => ECreate (batch_new_kwargs env kw p)) ps |}.
Proof.
  intros Hm Hmark Hp. unfold completion_create_retry.
  rewrite (is_local_model_str kw m st Hm), Hmark.
  intros H. apply retry_forever_done_inv in H as (st_pass & Hpass & Hbefore).
  rewrite (hosted_attempt_list env kw ps m st_pass Hm Hp) in Hpass.
  destruct (batch_loop env kw 0 ps [] zero_usage st_pass) as [[[cs u] | e] st1] eqn:Hb;
    [| discriminate].
  injection Hpass as <- <-.
  destruct (batch_loop_ok_inv env kw ps 0 [] zero_usage st_pass cs u st1 Hb)
    as (rs & Hans & -> & ->).
  rewrite (batch_loop_answered env kw ps rs 0 [] zero_usage st_pass Hans) in Hb.
  injection Hb as <-.
  exists st_pass, rs. by repeat split.
Qed.

Lemma single_run_inv (env : environment) (rounds : nat) (sleep_time : option Q)
    (kw : kwargs) (m : string) (st : state) (v : retval) (st' : state) :
  kw !! "model" = Some (VStr m) ->
  has_marker m = false ->
  is_list (kwargs_get_or kw "prompt" (VStr "")) = false ->
  completion_create_retry env rounds sleep_time kw st = Done (Ok v) st' ->
  exists c response,
    create env c (single_new_kwargs env kw (kwargs_get_or kw "prompt" (VStr "")))
      = Ok response /\
    v = Legacy (legacy_of response).
Proof.
  intros Hm Hmark Hp. unfold completion_create_retry.
  rewrite (is_local_model_str kw m st Hm), Hmark.
  intros H. apply retry_forever_done_inv in H as (st_pass & Hpass & _).
  rewrite (hosted_attempt_single env kw st_pass Hp) in Hpass.
  destruct (create env (created st_pass) _) as [resp | e] eqn:Hc; [| discriminate].
  injection Hpass as <- _. eauto.
Qed.

Lemma enumerate_choices_index (cs : list api_choice) :
  length (enumerate_choices cs) = length cs /\
  forall i ch, enumerate_choices cs !! i = Some ch -> index ch = i.
Proof.
  unfold enumerate_choices. split; [apply length_imap |].
  intros i ch. rewrite list_lookup_imap.
  destruct (cs !! i); simpl; [| done]. by intros [= <-].
Qed.

Lemma flaky_env_honours_n (failures : nat) : api_honours_n (flaky_env failures).
Proof.
  intros k p r. simpl. destruct (k <? failures)%nat; [discriminate |].
  intros [= <-]. simpl. apply repeat_length.
Qed.

(** ** completion_create_retry: the shape of the response *)

(** C3.  With a hosted API that answers a payload without [n] with one
    choice, a list of N prompts on the hosted branch comes back from the pass
    that issued one call per prompt, in order, as the last N hosted calls:
    one choice per prompt, the i-th carrying index i and the text of the
    i-th answer, and usage counts that are the sums over the answers of that
    pass.  A pass whose calls are all answered returns at once. *)
Theorem batch_one_choice_per_prompt (env : environment) (sleep_time : option Q)
    (kw : kwargs) (m : string) (ps : list pyval) (st : state) :
  api_honours_n env ->
  kw !! "model" = Some (VStr m) ->
  has_marker m = false ->
  kw !! "prompt" = Some (VList ps) ->
  (forall rounds v st',
     completion_create_retry env rounds sleep_time kw st = Done (Ok v) st' ->
     exists c rs r,
       answered env kw c ps rs /\
       created st' = (c + length ps)%nat /\
       (exists before,
          log st' = log st ++ before ++
                    map (fun p => ECreate (batch_new_kwargs env kw p)) ps) /\
       v = Legacy r /\
       length (choices r) = length ps /\
       (forall i ch, choices r !! i = Some ch ->
          index ch = i /\
          exists response c0,
            rs !! i = Some response /\ api_choices response = [c0] /\
            text ch = message_content c0 /\
            finish_reason ch = api_finish_reason c0) /\
       exists u,
         usage r = Some u /\
         prompt_tokens u = tokens_sum prompt_tokens rs /\
         completion_tokens u = tokens_sum completion_tokens rs /\
         total_tokens u = tokens_sum total_tokens rs) /\
  (forall rounds rs,
     answered env kw (created st) ps rs ->
     completion_create_retry env (S rounds) sleep_time kw st =
     Done (Ok (Legacy {| choices := batch_choices 0 rs;
                         model := VStr m;
                         usage := Some (sum_usage rs zero_usage) |}))
          {| created := created st + length ps;
             log := log st ++
                    map (fun p => ECreate (batch_new_kwargs env kw p)) ps |}).
Proof.
  intros Hapi Hm Hmark Hp. split.
  - intros rounds v st' Hrun.
    destruct (batch_run_inv env rounds sleep_time kw m ps st v st' Hm Hmark Hp Hrun)
      as (st_pass & rs & [before Hbefore] & Hans & -> & ->).
    pose proof (answered_one_choice env kw Hapi ps rs _ Hans) as Hone.
    destruct (batch_choices_one_each rs 0 Hone) as [Hlen Hidx].
    destruct (sum_usage_tokens rs zero_usage) as (H1 & H2 & H3).
    exists (created st_pass), rs. eexists. split; [exact Hans |].
    split; [reflexivity |]. split.
    { exists before. simpl. rewrite Hbefore. by rewrite <- app_assoc. }
    split; [reflexivity |]. simpl. split.
    { rewrite Hlen. by eapply answered_length. }
    split.
    { intros i ch Hch. destruct (Hidx i ch Hch) as [Hi Hrest]. by split. }
    exists (sum_usage rs zero_usage). simpl in H1, H2, H3. by repeat split.
  - intros rounds rs Hans. unfold completion_create_retry.
    rewrite (is_local_model_str kw m st Hm), Hmark. simpl.
    rewrite (hosted_attempt_list env kw ps m st Hm Hp).
    by rewrite (batch_loop_answered env kw ps rs 0 [] zero_usage st Hans).
Qed.

Lemma batch_one_choice_per_prompt_witness :
  api_honours_n (flaky_env 1) /\
  exists r,
    returned (completion_create_retry (flaky_env 1) 2 None kw_batch st0) =
      Some (Legacy r) /\
    length (choices r) = 2%nat /\
    (forall i ch, choices r !! i = Some ch -> index ch = i).
Proof.
  pose proof (flaky_env_honours_n 1) as Hapi. split; [exact Hapi |].
  assert (Hm : kw_batch !! "model" = Some (VStr "gpt-4")) by reflexivity.
  assert (Hp : kw_batch !! "prompt" = Some (VList [VStr "a"; VStr "b"]))
    by reflexivity.
  destruct (proj1 (batch_one_choice_per_prompt (flaky_env 1) None kw_batch
                     "gpt-4" [VStr "a"; VStr "b"] st0 Hapi Hm eq_refl Hp)
              2%nat _ _ eq_refl)
    as (c & rs & r & _ & _ & _ & Hv & Hlen & Hidx & _).
  exists r. split; [| split].
  - injection Hv as <-. reflexivity.
  - exact Hlen.
  - intros i ch Hch. by destruct (Hidx i ch Hch).
Defined.

(** C5.  With a hosted API that answers with as many choices as the payload
    asks for, a single-prompt request, through the backoff operation or
    through the single-prompt branch of the unconditional retry, comes back
    with as many choices as the caller's [n] (1 when unset), each carrying
    its own position as index; and it does come back as soon as a call is
    answered. *)
Theorem single_prompt_choices (env : environment) (kw : kwargs) :
  api_honours_n env ->
  (forall st r st',
     completion_with_backoff env kw st = (Ok r, st') ->
     length (choices r) = requested kw /\
     forall i ch, choices r !! i = Some ch -> index ch = i) /\
  (forall rounds sleep_time m st v st',
     kw !! "model" = Some (VStr m) ->
     has_marker m = false ->
     is_list (kwargs_get_or kw "prompt" (VStr "")) = false ->
     completion_create_retry env rounds sleep_time kw st = Done (Ok v) st' ->
     exists r, v = Legacy r /\
       length (choices r) = requested kw /\
       forall i ch, choices r !! i = Some ch -> index ch = i) /\
  (forall st response,
     create env (created st) (backoff_new_kwargs kw) = Ok response ->
     fst (completion_with_backoff env kw st) = Ok (legacy_of response)) /\
  (forall rounds sleep_time m st response,
     kw !! "model" = Some (VStr m) ->
     has_marker m = false ->
     is_list (kwargs_get_or kw "prompt" (VStr "")) = false ->
     create env (created st)
       (single_new_kwargs env kw (kwargs_get_or kw "prompt" (VStr "")))
       = Ok response ->
     returned (completion_create_retry env (S rounds) sleep_time kw st) =
       Some (Legacy (legacy_of response))).
Proof.
  intros Hapi. split; [| split; [| split]].
  - intros st r st' Hrun.
    destruct (completion_with_backoff_ok_inv env kw _ _ _ _ _ Hrun)
      as (c & resp & Hc & ->).
    destruct (enumerate_choices_index (api_choices resp)) as [Hlen Hidx].
    split; [| exact Hidx].
    simpl. rewrite Hlen, (Hapi _ _ _ Hc). apply backoff_requested.
  - intros rounds sleep_time m st v st' Hm Hmark Hp Hrun.
    destruct (single_run_inv env rounds sleep_time kw m st v st' Hm Hmark Hp Hrun)
      as (c & resp & Hc & ->).
    destruct (enumerate_choices_index (api_choices resp)) as [Hlen Hidx].
    eexists. split; [reflexivity |]. split; [| exact Hidx].
    simpl. rewrite Hlen, (Hapi _ _ _ Hc). apply single_requested.
  - intros st resp Hc. unfold completion_with_backoff.
    rewrite retry_from_eq, completion_attempt_eq. by rewrite Hc.
  - intros rounds sleep_time m st resp Hm Hmark Hp Hc.
    unfold completion_create_retry.
    rewrite (is_local_model_str kw m st Hm), Hmark. simpl.
    rewrite (hosted_attempt_single env kw st Hp). by rewrite Hc.
Qed.

Lemma single_prompt_choices_witness :
  api_honours_n (flaky_env 2) /\
  (exists r, fst (completion_with_backoff (flaky_env 2) kw_single st0) = Ok r /\
             length (choices r) = 2%nat) /\
  (exists r, returned (completion_create_retry (flaky_env 2) 3 None kw_single st0)
               = Some (Legacy r) /\
             length (choices r) = 2%nat).
Proof.
  pose proof (flaky_env_honours_n 2) as Hapi. split; [exact Hapi |].
  destruct (single_prompt_choices (flaky_env 2) kw_single Hapi)
    as (Hback & Hretry & _ & _).
  split.
  - destruct (completion_with_backoff (flaky_env 2) kw_single st0)
      as [[r | e] st'] eqn:Hrun; [| discriminate Hrun].
    exists r. split; [reflexivity |].
    by destruct (Hback st0 r st' Hrun) as [-> _].
  - destruct (Hretry 3%nat None "gpt-4" st0 _ _ eq_refl eq_refl eq_refl eq_refl)
      as (r & Hv & Hlen & _).
    exists r. split; [| exact Hlen].
    injection Hv as <-. reflexivity.
Defined.



(** ** completion_create_retry: the local-model branch *)

Lemma first_of_each_singletons (qs : list pyval) :
  first_of_each (map (fun x => VList [x]) qs) = Ok qs.
Proof. induction qs as [| q qs IH]; simpl; [done |]. by rewrite IH. Qed.

Lemma local_branch_cases (env : environment) (kw : kwargs) (st : state) :
  local_branch env kw st =
  match unwrap_prompts kw with
  | Raise e => (Raise e, st)
  | Ok prompts =>
      match kw !! "endpoint" with
      | None => (Raise (KeyError "endpoint"), st)
      | Some (VCallable f) =>
          (match call env f prompts kw with
           | Ok v => Ok (FromEndpoint v)
           | Raise e => Raise e
           end, emit (EEndpoint f prompts kw) st)
      | Some _ => (Raise TypeError, st)
      end
  end.
Proof.
  unfold local_branch, bind, lift, kwargs_item.
  destruct (unwrap_prompts kw) as [prompts | e]; [| done].
  destruct (kw !! "endpoint") as [[] |]; done.
Qed.

(** C4, as the code has it.  A model name with a local-model marker never
    reaches the hosted call or the retry loop: the run is over at once and
    logs at most the one endpoint call.  With a prompt that can be
    normalised and an endpoint callable supplied, that endpoint is called
    once on the normalised prompts and all the keywords, and its result or
    its exception is handed back as it is.  Normalising leaves the prompt
    value alone when its first element is not a list, and otherwise keeps the
    first element of every entry, which unwraps a list of one-element
    lists. *)
Theorem local_model_delegates (env : environment) (rounds : nat)
    (sleep_time : option Q) (kw : kwargs) (m : string) (st : state) :
  kw !! "model" = Some (VStr m) ->
  has_marker m = true ->
  (exists r st',
     completion_create_retry env rounds sleep_time kw st = Done r st' /\
     created st' = created st /\
     (st' = st \/ exists f prompts, st' = emit (EEndpoint f prompts kw) st)) /\
  (forall prompts f,
     unwrap_prompts kw = Ok prompts ->
     kw !! "endpoint" = Some (VCallable f) ->
     completion_create_retry env rounds sleep_time kw st =
     Done (match call env f prompts kw with
           | Ok v => Ok (FromEndpoint v)
           | Raise e => Raise e
           end)
          (emit (EEndpoint f prompts kw) st)) /\
  (forall p first,
     kw !! "prompt" = Some p -> getitem0 p = Ok first -> is_list first = false ->
     unwrap_prompts kw = Ok p) /\
  (forall ps first xs,
     kw !! "prompt" = Some (VList ps) -> getitem0 (VList ps) = Ok first ->
     is_list first = true -> first_of_each ps = Ok xs ->
     unwrap_prompts kw = Ok (VList xs)) /\
  (forall q qs,
     kw !! "prompt" = Some (VList (map (fun x => VList [x]) (q :: qs))) ->
     unwrap_prompts kw = Ok (VList (q :: qs))).
Proof.
  intros Hm Hmark.
  assert (Hrun : completion_create_retry env rounds sleep_time kw st =
                 Done (fst (local_branch env kw st)) (snd (local_branch env kw st))).
  { unfold completion_create_retry.
    rewrite (is_local_model_str kw m st Hm), Hmark.
    by destruct (local_branch env kw st). }
  split; [| split; [| split; [| split]]].
  - rewrite Hrun, local_branch_cases. do 2 eexists. split; [reflexivity |].
    destruct (unwrap_prompts kw) as [prompts | e]; [| by split; [| left]].
    destruct (kw !! "endpoint") as [[] |]; simpl; try (by split; [| left]).
    split; [done |]. right. eauto.
  - intros prompts f Hu He. rewrite Hrun, local_branch_cases, Hu, He. done.
  - intros p first Hp Hfirst Hl. unfold unwrap_prompts, kwargs_item.
    by rewrite Hp, Hfirst, Hl.
  - intros ps first xs Hp Hfirst Hl Hxs. unfold unwrap_prompts, kwargs_item.
    by rewrite Hp, Hfirst, Hl, Hxs.
  - intros q qs Hp. unfold unwrap_prompts, kwargs_item. rewrite Hp.
    simpl. by rewrite first_of_each_singletons.
Qed.

Lemma local_model_delegates_witness :
  completion_create_retry (flaky_env 0) 0 None kw_local st0 =
  Done (Ok (FromEndpoint (VList [VStr "a"; VStr "b"])))
       (emit (EEndpoint 0 (VList [VStr "a"; VStr "b"]) kw_local) st0).
Proof.
  assert (Hm : kw_local !! "model" = Some (VStr "vicuna-7b")) by reflexivity.
  assert (He : kw_local !! "endpoint" = Some (VCallable 0)) by reflexivity.
  assert (Hp : kw_local !! "prompt" =
               Some (VList (map (fun x => VList [x]) [VStr "a"; VStr "b"])))
    by reflexivity.
  destruct (local_model_delegates (flaky_env 0) 0 None kw_local "vicuna-7b" st0
              Hm eq_refl) as (_ & Hcall & _ & _ & Hunwrap).
  exact (Hcall _ 0%nat (Hunwrap _ _ Hp) He).
Defined.

(** C4 as stated fails: entries with more than one prompt lose all but the
    first, so what the endpoint receives is not the flattened list; and an
    empty prompt raises before any endpoint is called. *)
Lemma local_model_not_flattened :
  (completion_create_retry (flaky_env 0) 0 None kw_local_pairs st0 =
     Done (Ok (FromEndpoint (VList [VStr "a"; VStr "c"])))
          (emit (EEndpoint 0 (VList [VStr "a"; VStr "c"]) kw_local_pairs) st0) /\
   VList [VStr "a"; VStr "c"] <>
   VList (spec_flatten [VList [VStr "a"; VStr "b"]; VList [VStr "c"]])) /\
  completion_create_retry (flaky_env 0) 0 None kw_local_empty st0 =
    Done (Raise IndexError) st0.
Proof.
  split; [split |].
  - reflexivity.
  - discriminate.
  - reflexivity.
Qed.

(** ** What goes out to the hosted API *)

Section Sends.

Variable P : payload -> Prop.

Lemma sends_ret {A : Type} (a : A) : sends P (ret a).
Proof. intros st. exists []. simpl. by rewrite app_nil_r. Qed.

Lemma sends_raise {A : Type} (e : exn) : sends P (@raise A e).
Proof. intros st. exists []. simpl. by rewrite app_nil_r. Qed.

Lemma sends_lift {A : Type} (r : result A) : sends P (lift r).
Proof. intros st. exists []. simpl. by rewrite app_nil_r. Qed.

Lemma sends_bind {A B : Type} (m : M A) (k : A -> M B) :
  sends P m -> (forall a, sends P (k a)) -> sends P (bind m k).
Proof.
  intros Hm Hk st. unfold bind.
  destruct (Hm st) as (evs & Hlog & Hall).
  destruct (m st) as [[a | e] st1]; simpl in *.
  - destruct (Hk a st1) as (evs' & Hlog' & Hall').
    exists (evs ++ evs'). rewrite Hlog', Hlog, app_assoc.
    split; [done |]. by apply Forall_app.
  - by exists evs.
Qed.

Lemma sends_client_create (env : environment) (p : payload) :
  P p -> sends P (client_create env p).
Proof.
  intros Hp st. exists [ECreate p]. simpl. split; [done |].
  by repeat constructor.
Qed.

Lemma sends_sleep (t : Q) : sends P (sleep t).
Proof.
  intros st. destruct (sleep_cases t st) as [-> | [e ->]]; simpl.
  - exists [ESleep t]. split; [done |]. by repeat constructor.
  - exists []. by rewrite app_nil_r.
Qed.

Lemma sends_print_error (e : exn) : sends P (print_error e).
Proof.
  intros st. exists [EPrintError e]. simpl. split; [done |].
  by repeat constructor.
Qed.

Lemma sends_retry_from {A : Type} (wait : nat -> Q) (stop : nat -> bool)
    (fn : M A) :
  sends P fn -> forall budget a, sends P (retry_from wait stop budget a fn).
Proof.
  intros Hfn budget. induction budget as [| budget IH]; intros a st;
    rewrite retry_from_eq; destruct (Hfn st) as (evs & Hlog & Hall);
    destruct (fn st) as [[x | e] st1]; simpl in *; eauto;
    destruct (stop a); simpl; eauto.
  destruct (sends_bind (sleep (wait a))
              (fun _ => retry_from wait stop budget (S a) fn)
              (sends_sleep (wait a)) (fun _ => IH (S a)) st1)
    as (evs' & Hlog' & Hall').
  exists (evs ++ evs'). rewrite Hlog', Hlog, app_assoc.
  split; [done |]. by apply Forall_app.
Qed.

Lemma sends_completion_with_backoff (env : environment) (kw : kwargs) :
  P (backoff_new_kwargs kw) -> sends P (completion_with_backoff env kw).
Proof.
  intros Hp. apply sends_retry_from.
  apply sends_bind; [by apply sends_client_create |].
  intros a. apply sends_ret.
Qed.

Lemma sends_batch_loop (env : environment) (kw : kwargs) :
  (forall p, P (batch_new_kwargs env kw p)) ->
  forall ps i acc tot, sends P (batch_loop env kw i ps acc tot).
Proof.
  intros Hp ps. induction ps as [| p ps IH]; intros i acc tot; simpl.
  - apply sends_ret.
  - apply sends_bind; [by apply sends_client_create |].
    intros r. apply IH.
Qed.

Lemma sends_hosted_attempt (env : environment) (kw : kwargs) :
  (forall ps, kwargs_get_or kw "prompt" (VStr "") = VList ps ->
              forall p, P (batch_new_kwargs env kw p)) ->
  (is_list (kwargs_get_or kw "prompt" (VStr "")) = false ->
   P (single_new_kwargs env kw (kwargs_get_or kw "prompt" (VStr "")))) ->
  sends P (hosted_attempt env kw).
Proof.
  intros Hbatch Hsingle. unfold hosted_attempt.
  destruct (kwargs_get_or kw "prompt" (VStr "")) eqn:Hp;
    try (apply sends_bind;
         [apply sends_client_create; by apply Hsingle
         | intros r; apply sends_ret]).
  apply sends_bind.
  - apply sends_batch_loop. by apply (Hbatch l).
  - intros acc. apply sends_ret.
Qed.

Lemma sends_retry_forever (env : environment) (t : Q) (kw : kwargs) :
  sends P (hosted_attempt env kw) ->
  forall rounds st, exists evs,
    log (final_state (retry_forever env rounds t kw st)) = log st ++ evs /\
    Forall (event_ok P) evs.
Proof.
  intros Hatt rounds. induction rounds as [| rounds IH]; intros st; simpl.
  - exists []. by rewrite app_nil_r.
  - destruct (Hatt st) as (evs & Hlog & Hall).
    destruct (hosted_attempt env kw st) as [[r | e] st1]; simpl in *; eauto.
    destruct (sends_bind (print_error e) (fun _ => sleep t)
                (sends_print_error e) (fun _ => sends_sleep t) st1)
      as (evs1 & Hlog1 & Hall1).
    destruct (bind (print_error e) (fun _ => sleep t) st1) as [[[] | e'] st2];
      simpl in *.
    + destruct (IH st2) as (evs2 & Hlog2 & Hall2).
      exists (evs ++ evs1 ++ evs2).
      rewrite Hlog2, Hlog1, Hlog, <- !app_assoc. split; [done |].
      by repeat apply Forall_app_2.
    + exists (evs ++ evs1). rewrite Hlog1, Hlog, <- app_assoc.
      split; [done |]. by apply Forall_app_2.
Qed.

Lemma sends_is_local_model (kw : kwargs) : sends P (is_local_model kw).
Proof.
  unfold is_local_model.
  apply sends_bind; [apply sends_lift | intros m1].
  apply sends_bind; [apply sends_lift | intros [|]]; [apply sends_ret |].
  apply sends_bind; [apply sends_lift | intros m2].
  apply sends_bind; [apply sends_lift | intros [|]]; [apply sends_ret |].
  apply sends_bind; [apply sends_lift | intros m3].
  apply sends_lift.
Qed.

Lemma sends_local_branch (env : environment) (kw : kwargs) :
  sends P (local_branch env kw).
Proof.
  intros st. rewrite local_branch_cases.
  destruct (unwrap_prompts kw) as [prompts | e];
    [| exists []; simpl; by rewrite app_nil_r].
  destruct (kw !! "endpoint") as [[] |]; simpl;
    try (exists []; simpl; by rewrite app_nil_r).
  eexists [_]. split; [done |]. by repeat constructor.
Qed.

Lemma sends_completion_create_retry (env : environment) (kw : kwargs) :
  sends P (hosted_attempt env kw) ->
  forall rounds sleep_time st, exists evs,
    log (final_state (completion_create_retry env rounds sleep_time kw st)) =
      log st ++ evs /\
    Forall (event_ok P) evs.
Proof.
  intros Hatt rounds sleep_time st. unfold completion_create_retry.
  destruct (sends_is_local_model kw st) as (evs & Hlog & Hall).
  destruct (is_local_model kw st) as [[[|] | e] st1]; simpl in *.
  - destruct (sends_local_branch env kw st1) as (evs1 & Hlog1 & Hall1).
    destruct (local_branch env kw st1) as [r st2]. simpl in *.
    exists (evs ++ evs1). rewrite Hlog1, Hlog, <- app_assoc.
    split; [done |]. by apply Forall_app_2.
  - destruct (sends_retry_forever env (default 5%Q sleep_time) kw Hatt rounds st1)
      as (evs1 & Hlog1 & Hall1).
    exists (evs ++ evs1). rewrite Hlog1, Hlog, <- app_assoc.
    split; [done |]. by apply Forall_app_2.
  - by exists evs.
Qed.

End Sends.

Lemma remove_None_unset_omitted (kw : kwargs) (d : payload) :
  List.NoDup (map fst d) ->
  (forall k, In k sampling_parameters ->
     payload_lookup k d = None \/ payload_lookup k d = Some (kwargs_get kw k)) ->
  unset_omitted kw (remove_None d).
Proof.
  intros Hnd Hd k Hin Hnone.
  rewrite payload_lookup_remove_None by exact Hnd.
  destruct (Hd k Hin) as [-> | ->]; [done |]. by rewrite Hnone.
Qed.

Ltac each_sampling_parameter :=
  let k := fresh "k" in
  let Hin := fresh "Hin" in
  intros k Hin; simpl in Hin;
  repeat (destruct Hin as [<- | Hin];
          [first [right; reflexivity | left; reflexivity] |]);
  destruct Hin.

Lemma backoff_new_kwargs_well_formed (kw : kwargs) :
  well_formed_payload kw (backoff_new_kwargs kw).
Proof.
  split; [apply remove_None_no_None |].
  apply remove_None_unset_omitted; [exact keys_distinct_backoff |].
  each_sampling_parameter.
Qed.

Lemma single_new_kwargs_well_formed (env : environment) (kw : kwargs)
    (prompt : pyval) :
  well_formed_payload kw (single_new_kwargs env kw prompt).
Proof.
  split; [apply remove_None_no_None |].
  apply remove_None_unset_omitted; [exact keys_distinct_backoff |].
  each_sampling_parameter.
Qed.

Lemma batch_new_kwargs_well_formed (env : environment) (kw : kwargs)
    (p : pyval) :
  well_formed_payload kw (batch_new_kwargs env kw p).
Proof.
  split; [apply remove_None_no_None |].
  apply remove_None_unset_omitted; [exact keys_distinct_batch |].
  each_sampling_parameter.
Qed.

(** C6, as the code has it.  Each of the three payloads the module builds
    carries no [None] as the value of a key, and no key for any of the eight
    optional sampling parameters the caller left unset or set to [None]; and
    every hosted call the three operations make, on any request and on any
    retry, sends such a payload.  The model and the prompt are not treated
    that way: an absent model goes out as [gpt-3.5-turbo] (an explicit
    [None] is dropped), and the prompt always goes out inside the one user
    message, as given on the backoff path and through [str] on the retry
    paths. *)
Theorem unset_parameters_omitted (env : environment) (kw : kwargs) :
  well_formed_payload kw (backoff_new_kwargs kw) /\
  (forall p, well_formed_payload kw (batch_new_kwargs env kw p)) /\
  (forall prompt, well_formed_payload kw (single_new_kwargs env kw prompt)) /\
  sends (well_formed_payload kw) (completion_with_backoff env kw) /\
  (forall delay,
     sends (well_formed_payload kw)
           (delayed_completion_with_backoff env delay kw)) /\
  (forall rounds sleep_time st, exists evs,
     log (final_state (completion_create_retry env rounds sleep_time kw st)) =
       log st ++ evs /\
     Forall (event_ok (well_formed_payload kw)) evs) /\
  payload_lookup "model" (backoff_new_kwargs kw) =
    match kw !! "model" with
    | None => Some (VStr "gpt-3.5-turbo")
    | Some VNone => None
    | Some v => Some v
    end /\
  payload_lookup "messages" (backoff_new_kwargs kw) =
    Some (user_message (kwargs_get_or kw "prompt" (VStr ""))) /\
  (forall p,
     payload_lookup "messages" (single_new_kwargs env kw p) =
       Some (user_message (VStr (py_str env p))) /\
     payload_lookup "messages" (batch_new_kwargs env kw p) =
       Some (user_message (VStr (py_str env p)))).
Proof.
  pose proof (backoff_new_kwargs_well_formed kw) as Hb.
  split; [exact Hb |].
  split; [apply batch_new_kwargs_well_formed |].
  split; [apply single_new_kwargs_well_formed |].
  split; [by apply sends_completion_with_backoff |].
  split.
  { intros delay. apply sends_bind; [apply sends_sleep |].
    intros _. by apply sends_completion_with_backoff. }
  split.
  { apply sends_completion_create_retry.
    apply sends_hosted_attempt.
    - intros ps _ p. apply batch_new_kwargs_well_formed.
    - intros _. apply single_new_kwargs_well_formed. }
  unfold backoff_new_kwargs, single_new_kwargs, batch_new_kwargs.
  split; [| split; [| intros p; split]];
    rewrite payload_lookup_remove_None
      by first [exact keys_distinct_backoff | exact keys_distinct_batch];
    try reflexivity.
  simpl. unfold kwargs_get_or. by destruct (kw !! "model") as [[] |].
Qed.

(** C6 as stated fails for the model and the prompt: an unset model is sent
    all the same, with the fallback value, and a prompt set to [None] is
    sent as a null inside the message. *)
Lemma unset_model_and_null_prompt_sent :
  (kw_no_model !! "model" = None /\
   payload_lookup "model" (backoff_new_kwargs kw_no_model) =
     Some (VStr "gpt-3.5-turbo")) /\
  (kw_null_prompt !! "prompt" = Some VNone /\
   log (snd (completion_with_backoff (flaky_env 0) kw_null_prompt st0)) =
     [ECreate [("model", VStr "gpt-4");
               ("messages",
                VList [VDict [("role", VStr "user"); ("content", VNone)]])]]).
Proof. repeat split. Qed.

(** C9.  The payload of a per-prompt call never has an [n] key, whatever
    the caller's [n], so it asks for the API's default of one completion;
    and when the prompt is a list no hosted call of the operation, on any
    round, carries [n]. *)
Theorem batch_never_sends_n (env : environment) (kw : kwargs) :
  (forall p,
     payload_lookup "n" (batch_new_kwargs env kw p) = None /\
     requested_n (batch_new_kwargs env kw p) = 1%nat) /\
  (forall rounds sleep_time ps st,
     kw !! "prompt" = Some (VList ps) ->
     exists evs,
       log (final_state (completion_create_retry env rounds sleep_time kw st)) =
         log st ++ evs /\
       Forall (event_ok (fun p => payload_lookup "n" p = None)) evs).
Proof.
  split.
  - intros p. split; [apply batch_new_kwargs_no_n | apply batch_requested_one].
  - intros rounds sleep_time ps st Hp.
    apply sends_completion_create_retry.
    apply sends_hosted_attempt.
    + intros ps' _ p. apply batch_new_kwargs_no_n.
    + unfold kwargs_get_or. rewrite Hp. discriminate.
Qed.

Lemma batch_never_sends_n_witness :
  kw_batch !! "n" = Some (VInt 2) /\
  List.filter is_create
    (log (final_state (completion_create_retry (flaky_env 1) 2 None kw_batch st0)))
  <> [] /\
  Forall (event_ok (fun p => payload_lookup "n" p = None))
    (log (final_state (completion_create_retry (flaky_env 1) 2 None kw_batch st0))).
Proof.
  split; [reflexivity |]. split; [discriminate |].
  assert (Hp : kw_batch !! "prompt" = Some (VList [VStr "a"; VStr "b"]))
    by reflexivity.
  destruct (proj2 (batch_never_sends_n (flaky_env 1) kw_batch) 2%nat None _ st0 Hp)
    as (evs & Hlog & Hall).
  rewrite Hlog. exact Hall.
Defined.

(** ** Dispatch on the model name *)

Lemma prefix_spec (needle hay : string) :
  String.prefix needle hay = true <->
  exists post, hay = String.append needle post.
Proof.
  revert hay. induction needle as [| a needle IH]; intros hay.
  - split; [intros _; by exists hay | intros _; by destruct hay].
  - destruct hay as [| b hay]; simpl.
    + split; [done | intros [post Hpost]; discriminate].
    + destruct (Ascii.ascii_dec a b) as [-> | Hne].
      * rewrite IH. split; intros [post Hpost]; exists post.
        -- simpl. by rewrite Hpost.
        -- simpl in Hpost. by injection Hpost.
      * split; [done |]. intros [post Hpost]. simpl in Hpost.
        injection Hpost as Hab _. by destruct Hne.
Qed.

Lemma str_contains_spec (needle hay : string) :
  str_contains needle hay = true <-> is_substring needle hay.
Proof.
  unfold is_substring. induction hay as [| c hay IH].
  - change (str_contains needle "")
      with (String.prefix needle "" || false).
    rewrite orb_false_r, prefix_spec. split.
    + intros [post Hpost]. by exists EmptyString, post.
    + intros ([| c pre] & post & Hpost); [by exists post | discriminate].
  - change (str_contains needle (String c hay))
      with (String.prefix needle (String c hay) || str_contains needle hay).
    rewrite orb_true_iff, prefix_spec, IH. split.
    + intros [[post Hpost] | (pre & post & Hpost)].
      * by exists EmptyString, post.
      * exists (String c pre), post. simpl. by rewrite Hpost.
    + intros ([| c' pre] & post & Hpost).
      * left. by exists post.
      * right. exists pre, post. simpl in Hpost. by injection Hpost.
Qed.

Lemma has_marker_spec (m : string) :
  has_marker m = true <->
  exists marker, In marker markers /\ is_substring marker m.
Proof.
  unfold has_marker, markers. rewrite !orb_true_iff, !str_contains_spec. split.
  - intros [[H | H] | H]; eexists; (split; [| exact H]); simpl; tauto.
  - intros (marker & Hin & H). simpl in Hin.
    destruct Hin as [<- | [<- | [<- | []]]]; tauto.
Qed.

(** X1.  The model name is looked up and searched before the retry loop is
    entered: a request without [model] raises [KeyError], and one whose
    model is [None], a boolean or a number raises [TypeError], at once, with
    nothing called, printed or slept. *)
Theorem bad_model_raises_at_once (env : environment) (rounds : nat)
    (sleep_time : option Q) (kw : kwargs) (st : state) :
  (kw !! "model" = None ->
   completion_create_retry env rounds sleep_time kw st =
     Done (Raise (KeyError "model")) st) /\
  (forall v, kw !! "model" = Some v -> scalar v = true ->
   completion_create_retry env rounds sleep_time kw st =
     Done (Raise TypeError) st).
Proof.
  split.
  - intros Hm. unfold completion_create_retry, is_local_model, bind, lift,
      kwargs_item. by rewrite Hm.
  - intros v Hm Hv. unfold completion_create_retry, is_local_model, bind, lift,
      kwargs_item. rewrite Hm. by destruct v.
Qed.

Lemma bad_model_raises_at_once_witness :
  completion_create_retry dead_env 7 None kw_no_model st0 =
    Done (Raise (KeyError "model")) st0 /\
  completion_create_retry dead_env 7 None kw_none_model st0 =
    Done (Raise TypeError) st0.
Proof.
  destruct (bad_model_raises_at_once dead_env 7 None kw_no_model st0) as [H1 _].
  destruct (bad_model_raises_at_once dead_env 7 None kw_none_model st0) as [_ H2].
  split; [apply H1; reflexivity | apply (H2 VNone); reflexivity].
Defined.

(** X2.  For a string model name the branch taken is decided by substring
    search alone: the request goes to the endpoint, outside any retry,
    exactly when one of the three markers occurs somewhere in the name, and
    to the hosted retry loop otherwise. *)
Theorem dispatch_by_substring (env : environment) (rounds : nat)
    (sleep_time : option Q) (kw : kwargs) (m : string) (st : state) :
  kw !! "model" = Some (VStr m) ->
  ((exists marker, In marker markers /\ is_substring marker m) ->
   completion_create_retry env rounds sleep_time kw st =
     Done (fst (local_branch env kw st)) (snd (local_branch env kw st))) /\
  (~ (exists marker, In marker markers /\ is_substring marker m) ->
   completion_create_retry env rounds sleep_time kw st =
     retry_forever env rounds (default 5%Q sleep_time) kw st).
Proof.
  intros Hm. unfold completion_create_retry.
  rewrite (is_local_model_str kw m st Hm). split.
  - intros H. apply has_marker_spec in H. rewrite H.
    by destruct (local_branch env kw st).
  - intros H. destruct (has_marker m) eqn:Hmark; [| done].
    exfalso. apply H. by apply has_marker_spec.
Qed.

Lemma dispatch_by_substring_witness :
  (exists marker, In marker markers /\ is_substring marker "vicuna-7b") /\
  completion_create_retry (flaky_env 0) 0 None kw_local st0 =
    Done (fst (local_branch (flaky_env 0) kw_local st0))
         (snd (local_branch (flaky_env 0) kw_local st0)).
Proof.
  assert (H : exists marker, In marker markers /\ is_substring marker "vicuna-7b").
  { exists "vicuna". split; [simpl; tauto |]. by exists "", "-7b". }
  split; [exact H |].
  by apply (proj1 (dispatch_by_substring (flaky_env 0) 0 None kw_local
                     "vicuna-7b" st0 eq_refl)).
Defined.

(** ** Empty and malformed prompts *)

(** X3.  An empty list of prompts is where the two branches part: the hosted
    branch returns at once, without any hosted call, a response with no
    choices and zero usage, whereas the local-model branch raises
    [IndexError] before any endpoint is called. *)
Theorem empty_prompt_list (env : environment) (rounds : nat)
    (sleep_time : option Q) (kw : kwargs) (m : string) (st : state) :
  kw !! "model" = Some (VStr m) ->
  kw !! "prompt" = Some (VList []) ->
  (has_marker m = false ->
   completion_create_retry env (S rounds) sleep_time kw st =
     Done (Ok (Legacy {| choices := [];
                         model := VStr m;
                         usage := Some zero_usage |})) st) /\
  (has_marker m = true ->
   completion_create_retry env rounds sleep_time kw st =
     Done (Raise IndexError) st).
Proof.
  intros Hm Hp. unfold completion_create_retry.
  rewrite (is_local_model_str kw m st Hm). split; intros ->.
  - simpl. rewrite (hosted_attempt_list env kw [] m st Hm Hp). done.
  - rewrite local_branch_cases. unfold unwrap_prompts, kwargs_item.
    by rewrite Hp.
Qed.

Lemma empty_prompt_list_witness :
  completion_create_retry dead_env 1 None kw_empty_batch st0 =
    Done (Ok (Legacy {| choices := [];
                        model := VStr "gpt-4";
                        usage := Some zero_usage |})) st0.
Proof.
  by apply (proj1 (empty_prompt_list dead_env 0 None kw_empty_batch "gpt-4" st0
                     eq_refl eq_refl)).
Defined.

(** X4.  On the local-model branch the prompt is examined before the
    endpoint is looked up: a missing prompt raises [KeyError] for the
    prompt; with a prompt that normalises, a missing endpoint raises
    [KeyError] for the endpoint and an endpoint that is not callable raises
    [TypeError]; none of these calls anything. *)
Theorem local_branch_errors (env : environment) (rounds : nat)
    (sleep_time : option Q) (kw : kwargs) (m : string) (st : state) :
  kw !! "model" = Some (VStr m) ->
  has_marker m = true ->
  (kw !! "prompt" = None ->
   completion_create_retry env rounds sleep_time kw st =
     Done (Raise (KeyError "prompt")) st) /\
  (forall prompts, unwrap_prompts kw = Ok prompts ->
     kw !! "endpoint" = None ->
     completion_create_retry env rounds sleep_time kw st =
       Done (Raise (KeyError "endpoint")) st) /\
  (forall prompts v, unwrap_prompts kw = Ok prompts ->
     kw !! "endpoint" = Some v ->
     (forall f, v <> VCallable f) ->
     completion_create_retry env rounds sleep_time kw st =
       Done (Raise TypeError) st).
Proof.
  intros Hm Hmark. unfold completion_create_retry.
  rewrite (is_local_model_str kw m st Hm), Hmark, local_branch_cases.
  split; [| split].
  - intros Hp. unfold unwrap_prompts, kwargs_item. by rewrite Hp.
  - intros prompts Hu He. by rewrite Hu, He.
  - intros prompts v Hu He Hv. rewrite Hu, He.
    destruct v; try done. by destruct (Hv f).
Qed.

Lemma local_branch_errors_witness :
  unwrap_prompts kw_local_no_endpoint = Ok (VList [VStr "a"]) /\
  completion_create_retry (flaky_env 0) 3 None kw_local_no_endpoint st0 =
    Done (Raise (KeyError "endpoint")) st0.
Proof.
  split; [reflexivity |].
  destruct (local_branch_errors (flaky_env 0) 3 None kw_local_no_endpoint
              "alpaca-13b" st0 eq_refl eq_refl) as (_ & H & _).
  by apply (H (VList [VStr "a"])).
Defined.

(** X5.  Unwrapping nested prompts keeps one prompt per entry, in order:
    it succeeds exactly when every entry has a first element, and the result
    is the list of those first elements, as long as the list of entries. *)
Theorem first_of_each_spec (ps xs : list pyval) :
  first_of_each ps = Ok xs <->
  Forall2 (fun p x => getitem0 p = Ok x) ps xs.
Proof.
  revert xs. induction ps as [| p ps IH]; intros xs; simpl.
  - split.
    + intros [= <-]. constructor.
    + intros H. by inversion H.
  - destruct (getitem0 p) as [x | e] eqn:Hx.
    + destruct (first_of_each ps) as [ys | e] eqn:Hys.
      * split.
        -- intros [= <-]. constructor; [done |]. by apply IH.
        -- intros H. inversion H as [| ? x' ? ys' Hx' Hrest]; subst.
           apply IH in Hrest. congruence.
      * split; [done |]. intros H.
        inversion H as [| ? x' ? ys' Hx' Hrest]; subst.
        apply IH in Hrest. discriminate.
    + split; [done |]. intros H.
      inversion H as [| ? x' ? ys' Hx' Hrest]; subst. congruence.
Qed.


(** ** What the payload keeps and what it leaves behind *)

Lemma kept_if_set (kw : kwargs) (k : string) (d : payload) :
  List.NoDup (map fst d) ->
  payload_lookup k d = Some (kwargs_get kw k) ->
  kwargs_get kw k <> VNone ->
  payload_lookup k (remove_None d) = Some (kwargs_get kw k).
Proof.
  intros Hnd Hk Hset. rewrite payload_lookup_remove_None by exact Hnd.
  rewrite Hk. by destruct (kwargs_get kw k).
Qed.

(** X6.  A sampling parameter the caller sets to anything but [None]
    reaches the hosted API under the same key with the same value, on the
    backoff path and on the single-prompt path; on the per-prompt path so
    does every one of them except [n]. *)
Theorem set_parameters_forwarded (env : environment) (kw : kwargs)
    (prompt : pyval) (k : string) :
  In k sampling_parameters ->
  kwargs_get kw k <> VNone ->
  payload_lookup k (backoff_new_kwargs kw) = Some (kwargs_get kw k) /\
  payload_lookup k (single_new_kwargs env kw prompt) = Some (kwargs_get kw k) /\
  (k <> "n" ->
   payload_lookup k (batch_new_kwargs env kw prompt) = Some (kwargs_get kw k)).
Proof.
  intros Hin Hset.
  split; [| split; [| intros Hn]];
    (apply kept_if_set;
     [ first [exact keys_distinct_backoff | exact keys_distinct_batch]
     | | exact Hset ]);
    simpl in Hin;
    repeat (destruct Hin as [<- | Hin]; [first [reflexivity | by destruct Hn] |]);
    destruct Hin.
Qed.

Lemma set_parameters_forwarded_witness :
  kwargs_get kw_tuned "temperature" = VFloat (7 # 10) /\
  payload_lookup "temperature" (backoff_new_kwargs kw_tuned) =
    Some (VFloat (7 # 10)) /\
  payload_lookup "temperature" (batch_new_kwargs dead_env kw_tuned (VStr "x")) =
    Some (VFloat (7 # 10)).
Proof.
  split; [reflexivity |].
  assert (Hin : In "temperature" sampling_parameters) by (simpl; tauto).
  assert (Hset : kwargs_get kw_tuned "temperature" <> VNone) by discriminate.
  destruct (set_parameters_forwarded dead_env kw_tuned (VStr "x") "temperature"
              Hin Hset) as (H1 & _ & H3).
  split; [exact H1 | apply H3; discriminate].
Defined.

Lemma remove_None_only_api_keys (k : string) (d : payload) :
  (forall k', In k' (map fst d) -> In k' api_keys) ->
  ~ In k api_keys ->
  payload_lookup k (remove_None d) = None.
Proof.
  intros Hd Hk. apply payload_lookup_absent. intros Hin.
  apply Hk, Hd. by apply remove_None_keys.
Qed.

Lemma builders_only_api_keys (env : environment) (kw : kwargs) (prompt : pyval)
    (k : string) :
  ~ In k api_keys ->
  payload_lookup k (backoff_new_kwargs kw) = None /\
  payload_lookup k (single_new_kwargs env kw prompt) = None /\
  payload_lookup k (batch_new_kwargs env kw prompt) = None.
Proof.
  intros Hk. repeat split; apply remove_None_only_api_keys; try exact Hk;
    intros k' Hin; simpl in Hin; unfold api_keys; simpl; tauto.
Qed.

(** X7.  Nothing but the ten keys of the chat-completion request is ever
    sent: whatever else the caller passes ([prompt], [endpoint], any other
    keyword) is dropped, by each of the three operations, on every call and
    every retry. *)
Theorem foreign_keys_never_sent (env : environment) (kw : kwargs) :
  let only_api_keys := fun p : payload =>
        forall k, ~ In k api_keys -> payload_lookup k p = None in
  sends only_api_keys (completion_with_backoff env kw) /\
  (forall delay,
     sends only_api_keys (delayed_completion_with_backoff env delay kw)) /\
  (forall rounds sleep_time st, exists evs,
     log (final_state (completion_create_retry env rounds sleep_time kw st)) =
       log st ++ evs /\
     Forall (event_ok only_api_keys) evs).
Proof.
  intros only_api_keys.
  assert (Hb : only_api_keys (backoff_new_kwargs kw)).
  { intros k Hk. by destruct (builders_only_api_keys env kw VNone k Hk). }
  split; [| split].
  - by apply sends_completion_with_backoff.
  - intros delay. apply sends_bind; [apply sends_sleep |].
    intros _. by apply sends_completion_with_backoff.
  - apply sends_completion_create_retry. apply sends_hosted_attempt.
    + intros ps _ p k Hk. by destruct (builders_only_api_keys env kw p k Hk) as (_ & _ & H).
    + intros _ k Hk.
      by destruct (builders_only_api_keys env kw
                     (kwargs_get_or kw "prompt" (VStr "")) k Hk) as (_ & H & _).
Qed.

Lemma foreign_keys_never_sent_witness :
  kw_tuned !! "user" = Some (VStr "alice") /\
  Forall (event_ok (fun p => payload_lookup "user" p = None /\
                             payload_lookup "endpoint" p = None /\
                             payload_lookup "prompt" p = None))
    (log (final_state
            (completion_create_retry (flaky_env 1) 3 None kw_tuned st0))).
Proof.
  split; [reflexivity |].
  pose proof (foreign_keys_never_sent (flaky_env 1) kw_tuned) as H.
  simpl in H. destruct H as (_ & _ & H).
  destruct (H 3%nat None st0) as (evs & Hlog & Hall).
  rewrite Hlog. simpl. eapply Forall_impl; [exact Hall |].
  intros [p | | |] Hp; simpl; try done.
  repeat split; apply Hp; simpl; intuition discriminate.
Defined.

(** X8.  The backoff operation falls back on the model [gpt-3.5-turbo] only
    when the caller passes no [model] at all; an explicit [None] removes the
    key from the payload instead, and any other value is sent as it is. *)
Theorem backoff_model_default (kw : kwargs) :
  (kw !! "model" = None ->
   payload_lookup "model" (backoff_new_kwargs kw) = Some (VStr "gpt-3.5-turbo")) /\
  (kw !! "model" = Some VNone ->
   payload_lookup "model" (backoff_new_kwargs kw) = None) /\
  (forall v, kw !! "model" = Some v -> v <> VNone ->
   payload_lookup "model" (backoff_new_kwargs kw) = Some v).
Proof.
  unfold backoff_new_kwargs.
  rewrite payload_lookup_remove_None by exact keys_distinct_backoff.
  simpl. unfold kwargs_get_or. repeat split.
  - by intros ->.
  - by intros ->.
  - intros v -> Hv. simpl. by destruct v.
Qed.

Lemma backoff_model_default_witness :
  payload_lookup "model" (backoff_new_kwargs kw_no_model) =
    Some (VStr "gpt-3.5-turbo") /\
  payload_lookup "model" (backoff_new_kwargs kw_none_model) = None.
Proof.
  destruct (backoff_model_default kw_no_model) as (H1 & _ & _).
  destruct (backoff_model_default kw_none_model) as (_ & H2 & _).
  split; [apply H1 | apply H2]; reflexivity.
Defined.

(** X9.  In [completion_create_retry] the fallback model is never used:
    every hosted call it makes carries the caller's own [model] value. *)
Theorem retry_sends_callers_model (env : environment) (kw : kwargs)
    (rounds : nat) (sleep_time : option Q) (st : state) :
  exists evs,
    log (final_state (completion_create_retry env rounds sleep_time kw st)) =
      log st ++ evs /\
    Forall (event_ok (fun p => exists v, kw !! "model" = Some v /\
                                         payload_lookup "model" p = Some v)) evs.
Proof.
  destruct (kw !! "model") as [v |] eqn:Hm.
  - destruct (iterable v) eqn:Hv.
    + apply sends_completion_create_retry. apply sends_hosted_attempt.
      * intros ps _ p. exists v. split; [done |]. unfold batch_new_kwargs.
        rewrite payload_lookup_remove_None by exact keys_distinct_batch.
        simpl. unfold kwargs_get_or. rewrite Hm. by destruct v.
      * intros _. exists v. split; [done |]. unfold single_new_kwargs.
        rewrite payload_lookup_remove_None by exact keys_distinct_backoff.
        simpl. unfold kwargs_get_or. rewrite Hm. by destruct v.
    + exists []. rewrite app_nil_r. split; [| constructor].
      unfold completion_create_retry, is_local_model, bind, lift, kwargs_item.
      rewrite Hm. by destruct v.
  - exists []. rewrite app_nil_r. split; [| constructor].
    unfold completion_create_retry, is_local_model, bind, lift, kwargs_item.
    by rewrite Hm.
Qed.

(** ** The budget of the backoff operation *)

Lemma retry_from_calls (env : environment) (kw : kwargs) :
  forall (budget a : nat) (st : state),
    (1 <= a <= 10)%nat ->
    (created st <
       created (snd (retry_from (wait_random_exponential env 1 60)
                       (stop_after_attempt 10) budget a
                       (completion_attempt env kw) st)) <=
     created st + (11 - a))%nat.
Proof.
  induction budget as [| budget IH]; intros a st Ha;
    rewrite retry_from_eq, completion_attempt_eq;
    destruct (create env (created st) (backoff_new_kwargs kw)) as [r | e];
    try (simpl; lia);
    destruct (stop_after_attempt 10 a) eqn:Hstop; try (simpl; lia).
  unfold stop_after_attempt in Hstop. apply Nat.leb_gt in Hstop.
  unfold bind. case_sleep; [| simpl; lia].
  match goal with
  | |- context [retry_from ?w ?s budget (S a) ?f ?st1] =>
      pose proof (IH (S a) st1 ltac:(lia)) as Hrec
  end.
  simpl in Hrec. simpl. lia.
Qed.

(** X10.  Whatever the hosted API and the caller do, one invocation of the
    backoff operation makes at least one and at most ten hosted calls. *)
Theorem backoff_at_most_ten_calls (env : environment) (kw : kwargs) (st : state) :
  (created st < created (snd (completion_with_backoff env kw st)) <=
   created st + 10)%nat.
Proof.
  unfold completion_with_backoff.
  exact (retry_from_calls env kw 10 1 st ltac:(lia)).
Qed.

Lemma slept_app (l1 l2 : list event) :
  (slept (l1 ++ l2) == slept l1 + slept l2)%Q.
Proof.
  induction l1 as [| ev l1 IH]; simpl.
  - lra.
  - destruct ev; try exact IH. rewrite IH. lra.
Qed.

Lemma windows_from_step (a : nat) :
  (a < 10)%nat ->
  (windows_from a (10 - a) == window a + windows_from (S a) (10 - S a))%Q.
Proof.
  intros Ha. replace (10 - a)%nat with (S (10 - S a)) by lia.
  unfold windows_from. simpl. reflexivity.
Qed.

Lemma windows_from_nonneg (a n : nat) : (0 <= windows_from a n)%Q.
Proof.
  unfold windows_from. revert a. induction n as [| n IH]; intros a; simpl.
  - discriminate.
  - destruct (window_bounds a) as [H1 _]. specialize (IH (S a)). lra.
Qed.

Lemma retry_from_slept (env : environment) (kw : kwargs) :
  jitter_unit env ->
  forall (budget a : nat) (st : state),
    (1 <= a <= 10)%nat ->
    exists evs,
      log (snd (retry_from (wait_random_exponential env 1 60)
                  (stop_after_attempt 10) budget a
                  (completion_attempt env kw) st)) = log st ++ evs /\
      (slept evs <= windows_from a (10 - a))%Q.
Proof.
  intros Hj. induction budget as [| budget IH]; intros a st Ha;
    rewrite retry_from_eq, completion_attempt_eq;
    pose proof (windows_from_nonneg a (10 - a)) as Hnn;
    destruct (create env (created st) (backoff_new_kwargs kw)) as [r | e];
    try (eexists [_]; split; [reflexivity | simpl; exact Hnn]);
    destruct (stop_after_attempt 10 a) eqn:Hstop;
    try (eexists [_]; split; [reflexivity | simpl; exact Hnn]).
  unfold stop_after_attempt in Hstop. apply Nat.leb_gt in Hstop.
  unfold bind. rewrite sleep_wait_ok by exact Hj.
  match goal with
  | |- context [retry_from ?w ?s budget (S a) ?f ?st1] =>
      destruct (IH (S a) st1 ltac:(lia)) as (evs & Hlog & Hsl)
  end.
  exists (ECreate (backoff_new_kwargs kw)
            :: ESleep (wait_random_exponential env 1 60 a) :: evs).
  split.
  - rewrite Hlog. simpl. by rewrite <- !app_assoc.
  - simpl. rewrite (windows_from_step a) by lia.
    destruct (wait_in_window env a Hj) as [_ Hw]. lra.
Qed.

(** X11.  With jitter drawn from the unit interval, one invocation of the
    backoff operation sleeps 243 time units in total at the most (the nine
    windows 1, 2, 4, 8, 16, 32, 60, 60 and 60), whatever the hosted API
    does. *)
Theorem backoff_total_sleep (env : environment) (kw : kwargs) (st : state) :
  jitter_unit env ->
  exists evs,
    log (snd (completion_with_backoff env kw st)) = log st ++ evs /\
    (slept evs <= 243)%Q.
Proof.
  intros Hj. unfold completion_with_backoff.
  destruct (retry_from_slept env kw Hj 10 1 st ltac:(lia)) as (evs & Hlog & Hsl).
  exists evs. split; [exact Hlog |].
  eapply Qle_trans; [exact Hsl |]. by vm_compute.
Qed.

Lemma backoff_total_sleep_witness :
  jitter_unit dead_env /\
  (slept (log (snd (completion_with_backoff dead_env kw_single st0))) <= 243)%Q.
Proof.
  assert (Hj : jitter_unit dead_env) by (apply jitter_unit_half; reflexivity).
  split; [exact Hj |].
  destruct (backoff_total_sleep dead_env kw_single st0 Hj) as (evs & Hlog & Hsl).
  rewrite Hlog. exact Hsl.
Defined.

(** ** The unbounded retry: recovery and the sleep length *)












(** ** A failure in the middle of a list of prompts *)




(** ** Choices, whatever the API answers *)

Lemma batch_choices_origin :
  forall (rs : list api_response) (i j : nat) (ch : legacy_choice),
    batch_choices i rs !! j = Some ch ->
    exists q response c0,
      rs !! q = Some response /\ In c0 (api_choices response) /\
      index ch = (i + q)%nat /\
      text ch = message_content c0 /\
      finish_reason ch = api_finish_reason c0 /\
      logprobs ch = VNone.
Proof.
  induction rs as [| r rs IH]; intros i j ch; simpl.
  - by rewrite lookup_nil.
  - intros Hch. apply lookup_app_Some in Hch as [Hhere | [_ Hlater]].
    + unfold choices_at in Hhere. rewrite list_lookup_fmap in Hhere.
      destruct (api_choices r !! j) as [c0 |] eqn:Hc0; [| discriminate].
      injection Hhere as <-. exists 0%nat, r, c0. simpl.
      split; [done |]. split.
      { apply list_elem_of_In. by eapply list_elem_of_lookup_2. }
      split; [lia | done].
    + destruct (IH (S i) _ ch Hlater) as (q & resp & c0 & Hq & Hin & Hi & Hrest).
      exists (S q), resp, c0. simpl. repeat split; try tauto. lia.
Qed.

Lemma batch_choices_length :
  forall (rs : list api_response) (i : nat),
    length (batch_choices i rs) =
    sum_list (map (fun r => length (api_choices r)) rs).
Proof.
  induction rs as [| r rs IH]; intros i; simpl; [done |].
  rewrite length_app, IH. unfold choices_at. by rewrite length_map.
Qed.

(** X16.  Whatever number of choices the hosted API puts in its answers, in
    a list response every choice carries as index the position of the
    prompt it answers, not its own position: the response has as many
    choices as the answers of the pass hold together, and each is the copy
    of a choice of the answer to the prompt its index names. *)
Theorem batch_index_is_prompt_position (env : environment) (rounds : nat)
    (sleep_time : option Q) (kw : kwargs) (m : string) (ps : list pyval)
    (st : state) (v : retval) (st' : state) :
  kw !! "model" = Some (VStr m) ->
  has_marker m = false ->
  kw !! "prompt" = Some (VList ps) ->
  completion_create_retry env rounds sleep_time kw st = Done (Ok v) st' ->
  exists c rs r,
    answered env kw c ps rs /\ v = Legacy r /\
    length (choices r) = sum_list (map (fun a => length (api_choices a)) rs) /\
    forall j ch, choices r !! j = Some ch ->
      exists response c0,
        rs !! index ch = Some response /\ In c0 (api_choices response) /\
        text ch = message_content c0 /\
        finish_reason ch = api_finish_reason c0.
Proof.
  intros Hm Hmark Hp Hrun.
  destruct (batch_run_inv env rounds sleep_time kw m ps st v st' Hm Hmark Hp Hrun)
    as (st_pass & rs & _ & Hans & -> & _).
  exists (created st_pass), rs. eexists. split; [exact Hans |].
  split; [reflexivity |]. simpl. split; [apply batch_choices_length |].
  intros j ch Hch.
  destruct (batch_choices_origin rs 0 j ch Hch)
    as (q & resp & c0 & Hq & Hin & Hi & Ht & Hf & _).
  exists resp, c0. simpl in Hi. rewrite Hi. by repeat split.
Qed.

Lemma batch_index_is_prompt_position_witness :
  exists r,
    returned (completion_create_retry (flaky_env 0) 1 None kw_batch st0) =
      Some (Legacy r) /\
    length (choices r) = 2%nat /\
    map index (choices r) = [0; 1]%nat.
Proof.
  destruct (batch_index_is_prompt_position (flaky_env 0) 1 None kw_batch "gpt-4"
              [VStr "a"; VStr "b"] st0 _ _ eq_refl eq_refl eq_refl eq_refl)
    as (c & rs & r & _ & Hv & _ & _).
  exists r. injection Hv as <-. repeat split.
Defined.

Lemma enumerate_choices_origin (cs : list api_choice) :
  map text (enumerate_choices cs) = map message_content cs /\
  map finish_reason (enumerate_choices cs) = map api_finish_reason cs /\
  Forall (fun ch => logprobs ch = VNone) (enumerate_choices cs).
Proof.
  unfold enumerate_choices. split; [| split].
  - apply list_eq. intros i.
    rewrite !list_lookup_fmap, list_lookup_imap. by destruct (cs !! i).
  - apply list_eq. intros i.
    rewrite !list_lookup_fmap, list_lookup_imap. by destruct (cs !! i).
  - apply Forall_lookup. intros i ch. rewrite list_lookup_imap.
    destruct (cs !! i); simpl; [| done]. by intros [= <-].
Qed.

Lemma batch_choices_logprobs (rs : list api_response) (i : nat) :
  Forall (fun ch => logprobs ch = VNone) (batch_choices i rs).
Proof.
  apply Forall_lookup. intros j ch Hch.
  by destruct (batch_choices_origin rs i j ch Hch)
    as (_ & _ & _ & _ & _ & _ & _ & _ & H).
Qed.

(** X17.  A legacy response never carries log-probabilities: in whatever
    any of the hosted paths returns, every choice has [logprobs] set to
    [None]; and on the backoff path texts and finish reasons are those of
    the answer, one for one and in order. *)
Theorem legacy_choices_faithful (env : environment) (kw : kwargs) :
  (forall st r st',
     completion_with_backoff env kw st = (Ok r, st') ->
     exists c response,
       create env c (backoff_new_kwargs kw) = Ok response /\
       map text (choices r) = map message_content (api_choices response) /\
       map finish_reason (choices r) =
         map api_finish_reason (api_choices response) /\
       Forall (fun ch => logprobs ch = VNone) (choices r)) /\
  (forall rounds sleep_time m st v st',
     kw !! "model" = Some (VStr m) ->
     has_marker m = false ->
     completion_create_retry env rounds sleep_time kw st = Done (Ok v) st' ->
     exists r, v = Legacy r /\
               Forall (fun ch => logprobs ch = VNone) (choices r)).
Proof.
  split.
  - intros st r st' Hrun.
    destruct (completion_with_backoff_ok_inv env kw _ _ _ _ _ Hrun)
      as (c & resp & Hc & ->).
    exists c, resp. split; [exact Hc |]. apply enumerate_choices_origin.
  - intros rounds sleep_time m st v st' Hm Hmark Hrun.
    destruct (is_list (kwargs_get_or kw "prompt" (VStr ""))) eqn:Hl.
    + assert (Hp : exists ps, kw !! "prompt" = Some (VList ps)).
      { unfold kwargs_get_or in Hl.
        destruct (kw !! "prompt") as [[] |]; try discriminate. eauto. }
      destruct Hp as [ps Hp].
      destruct (batch_run_inv env rounds sleep_time kw m ps st v st'
                  Hm Hmark Hp Hrun) as (_ & rs & _ & _ & -> & _).
      eexists. split; [reflexivity |]. apply batch_choices_logprobs.
    + destruct (single_run_inv env rounds sleep_time kw m st v st'
                  Hm Hmark Hl Hrun) as (c & resp & _ & ->).
      eexists. split; [reflexivity |]. apply enumerate_choices_origin.
Qed.

Lemma legacy_choices_faithful_witness :
  exists r,
    fst (completion_with_backoff (flaky_env 1) kw_single st0) = Ok r /\
    map text (choices r) = [VStr "ok"; VStr "ok"] /\
    Forall (fun ch => logprobs ch = VNone) (choices r).
Proof.
  destruct (completion_with_backoff (flaky_env 1) kw_single st0)
    as [[r | e] st'] eqn:Hrun; [| discriminate Hrun].
  exists r. split; [reflexivity |].
  destruct (proj1 (legacy_choices_faithful (flaky_env 1) kw_single) st0 r st' Hrun)
    as (c & resp & Hc & Ht & _ & Hl).
  split; [| exact Hl].
  injection Hrun as <- _. reflexivity.
Defined.

(** X18.  Every payload carries exactly one message, of role [user].  The
    backoff operation puts the caller's prompt in it as it is, the
    unconditional retry puts [str] of the prompt (of each prompt, for a
    list), and a missing prompt counts as the empty string on the two
    single-prompt paths. *)
Theorem one_user_message (env : environment) (kw : kwargs) (p : pyval) :
  payload_lookup "messages" (backoff_new_kwargs kw) =
    Some (VList [VDict [("role", VStr "user");
                        ("content", kwargs_get_or kw "prompt" (VStr ""))]]) /\
  payload_lookup "messages" (single_new_kwargs env kw p) =
    Some (VList [VDict [("role", VStr "user");
                        ("content", VStr (py_str env p))]]) /\
  payload_lookup "messages" (batch_new_kwargs env kw p) =
    Some (VList [VDict [("role", VStr "user");
                        ("content", VStr (py_str env p))]]) /\
  (kw !! "prompt" = None ->
   first_request env kw = single_new_kwargs env kw (VStr "") /\
   payload_lookup "messages" (backoff_new_kwargs kw) =
     Some (VList [VDict [("role", VStr "user"); ("content", VStr "")]])).
Proof.
  unfold backoff_new_kwargs, single_new_kwargs, batch_new_kwargs.
  rewrite !payload_lookup_remove_None
    by first [exact keys_distinct_backoff | exact keys_distinct_batch].
  split; [reflexivity |]. split; [reflexivity |]. split; [reflexivity |].
  intros Hp. unfold first_request, kwargs_get_or. by rewrite Hp.
Qed.

Lemma one_user_message_witness :
  first_request dead_env kw_bare = single_new_kwargs dead_env kw_bare (VStr "") /\
  payload_lookup "messages" (backoff_new_kwargs kw_bare) =
    Some (VList [VDict [("role", VStr "user"); ("content", VStr "")]]).
Proof.
  destruct (one_user_message dead_env kw_bare VNone) as (_ & _ & _ & H).
  apply H. reflexivity.
Defined.
